(** * caragols.lib.clix: the command-line invocation extension

    A shallow embedding of [caragols/lib/clix.py]: the dispatch table built
    by [App.__init__], the logger and configuration set-up, the
    [App.idioms] property, [App.cognize], the run loop [App.run], the
    completion methods, [App.do_explain], [App.do_help] and [TestApp].

    Python values are modelled as follows.
    - [str] is [string]; Python compares [str] by code point, which on the
      UTF-8 bytes held by [string] is the byte-wise order of [String.compare].
    - [list] of [str] is [list string]; slices [xs[:n]] and [xs[n:]] are
      [firstn n xs] and [skipn n xs] (a slice never raises).
    - a raised exception is a value of [exn]; a call that may raise returns
      a result type with one constructor per way of leaving the call.
    - the attributes of [self] that the run loop mutates are the fields of
      [Store]; the class-level part of [self] is [PyClass].
    - [caragols.lib.condo] and the Python runtime ([logging], [glob],
      [os.path]) are reached through the interfaces [Condo] and [Runtime];
      the state of the [logging] module travels in the [Store].
    - a [print] under [self.mode == 'debug'] is kept as a [Note] on the
      standard output, with the values that its f-string formats. *)

From Stdlib Require Import List String Ascii Bool Arith ZArith Lia.
From Stdlib Require Import Sorting.Sorted Sorting.Permutation.
Import ListNotations.

Local Open Scope string_scope.
Local Open Scope list_scope.

(** ** Text helpers *)

Module Text.

(** The characters that cannot be written inside a string literal here. *)
Definition dquote : string := String (ascii_of_nat 34) EmptyString.
Definition newline : string := String (ascii_of_nat 10) EmptyString.
Definition tab : string := String (ascii_of_nat 9) EmptyString.

(** [s[n:]] on a [str]. *)
Fixpoint drop (n : nat) (s : string) : string :=
  match n, s with
  | O, _ => s
  | S _, EmptyString => EmptyString
  | S n', String _ s' => drop n' s'
  end.

(** [s.split(sep)] for a one-character separator: the pieces between the
    separators, empty pieces kept, and [['']] for the empty string. *)
Fixpoint split (sep : ascii) (s : string) : list string :=
  match s with
  | EmptyString => [EmptyString]
  | String c s' =>
      if Ascii.eqb c sep then EmptyString :: split sep s'
      else match split sep s' with
           | [] => [String c EmptyString]
           | w :: ws => String c w :: ws
           end
  end.

(** [sep.join(ws)]. *)
Definition join (sep : string) (ws : list string) : string :=
  String.concat sep ws.

(** [str(x)] of a value that may be [None]. *)
Definition str_of_option (o : option string) : string :=
  match o with
  | Some s => s
  | None => "None"
  end.

End Text.

(** ** The order of Python's tuple comparison on [(gravity, tokens, ...)] *)

Module Order.

(** [list] comparison: element by element, a proper prefix is smaller. *)
Fixpoint tokens_compare (a b : list string) : comparison :=
  match a, b with
  | [], [] => Eq
  | [], _ :: _ => Lt
  | _ :: _, [] => Gt
  | x :: a', y :: b' =>
      match String.compare x y with
      | Eq => tokens_compare a' b'
      | c => c
      end
  end.

(** The first two components of an idiom tuple. *)
Definition Key : Type := (nat * list string)%type.

(** [tuple] comparison on the first two components. *)
Definition key_compare (k1 k2 : Key) : comparison :=
  match Nat.compare (fst k1) (fst k2) with
  | Eq => tokens_compare (snd k1) (snd k2)
  | c => c
  end.

Definition key_ltb (k1 k2 : Key) : bool :=
  match key_compare k1 k2 with Lt => true | _ => false end.

(** [k1 >= k2]: the order in which a descending sort lists two keys. *)
Definition key_geb (k1 k2 : Key) : bool := negb (key_ltb k1 k2).

End Order.

(** ** [sorted(xs, reverse=True)] *)

Module PySort.
Import Order.

Section Sorted.
Variable A : Type.
(** The part of an element that the comparison reaches. *)
Variable key : A -> Key.

(** [x] goes after every element with a strictly greater key and before
    the first element whose key is not greater, so equal keys keep the
    order they had in the input, as Python's stable sort keeps them. *)
Fixpoint insert_desc (x : A) (l : list A) : list A :=
  match l with
  | [] => [x]
  | y :: l' =>
      if key_ltb (key x) (key y) then y :: insert_desc x l' else x :: l
  end.

Definition sorted_reverse (l : list A) : list A :=
  fold_right insert_desc [] l.

(** [a] may stand before [b] in a descending list. *)
Definition desc (a b : A) : Prop := key_geb (key a) (key b) = true.

End Sorted.

Arguments insert_desc {A} key x l.
Arguments sorted_reverse {A} key l.
Arguments desc {A} key a b.

End PySort.

(** ** Values shared by the application and its collaborators *)

(** A raised exception: its class, whether that class derives from
    [Exception] (what [except Exception] tests) and [str(err)]. *)
Record exn : Type := mk_exn {
  exn_class : string;
  exn_derives_Exception : bool;
  exn_str : string
}.

(** The [AttributeError] of reading an attribute that an object lacks. *)
Definition AttributeError (cls_name attr : string) : exn :=
  {| exn_class := "AttributeError";
     exn_derives_Exception := true;
     exn_str := "'" ++ cls_name ++ "' object has no attribute '" ++ attr ++ "'" |}.

(** The values of the [DEFAULTS] dictionary. *)
Inductive Scalar : Type :=
| SInt (z : Z)
| SStr (s : string).

(** The two ways of leaving [Condex.sed]: the residual barewords, or a
    raised error; either way with the tree as the call left it. *)
Inductive SedResult (C : Type) : Type :=
| SedDone (conf' : C) (barewords : list string)
| SedRaised (e : exn) (conf' : C).

Arguments SedDone {C} conf' barewords.
Arguments SedRaised {C} e conf'.

(** The interface of [caragols.lib.condo] that [clix.py] calls. The module
    is not part of [clix.py]; the application is verified against any
    implementation of this interface. *)
Class Condo : Type := {
  Condex : Type;
  JDN : Type;
  (** [condo.Condex()] *)
  condex_new : Condex;
  (** [conf.update(d)] for a dictionary of dotted keys *)
  condex_update_dict : Condex -> list (string * Scalar) -> Condex;
  (** [conf.update(other)] for another tree *)
  condex_update : Condex -> Condex -> Condex;
  (** [nuconf = condo.Condex(); nuconf.load(confile)] *)
  condex_load : string -> exn + Condex;
  (** [conf.sed(tokens)] *)
  condex_sed : Condex -> list string -> SedResult Condex;
  (** [conf.toJDN()] *)
  condex_toJDN : Condex -> JDN;
  (** [conf.get(key, default)] *)
  condex_get : Condex -> string -> JDN -> JDN;
  (** [key in conf] *)
  condex_contains : Condex -> string -> bool;
  (** [conf[key]] *)
  condex_item : Condex -> string -> exn + JDN;
  (** a Python scalar as a configuration value *)
  jdn_of_scalar : Scalar -> JDN;
  (** [isinstance(v, str)], with the string *)
  jdn_as_str : JDN -> option string
}.

(** The severities of [logging] that the application uses. *)
Module Logging.
Definition NOTSET : Z := 0.
Definition DEBUG : Z := 10.
Definition WARN : Z := 30.
Definition CRITICAL : Z := 50.
End Logging.

(** The interface of the Python runtime that [clix.py] calls: the [logging]
    module, [glob], [os.path], the script's name and two [str] built-ins.
    None of it is part of the repository; the application is verified
    against any implementation of this interface. *)
Class Runtime {C : Condo} : Type := {
  (** the state of the [logging] module: its loggers and their levels *)
  LogState : Type;
  (** a logger object *)
  Logger : Type;
  (** a Python object handed to [setLevel] *)
  PyObj : Type;
  (** [logging.basicConfig()] *)
  logging_basicConfig : LogState -> LogState;
  (** [logging.getLogger()] *)
  logging_root : Logger;
  (** [logging.getLogger(name)] *)
  logging_getLogger : LogState -> JDN -> exn + (Logger * LogState);
  (** [logger.setLevel(level)] *)
  logger_setLevel : LogState -> Logger -> PyObj -> exn + LogState;
  (** [logger.isEnabledFor(level)]: whether a call at that severity makes
      a record *)
  logger_isEnabledFor : LogState -> Logger -> Z -> bool;
  (** [vars(logging).get(name)] *)
  logging_vars : string -> option PyObj;
  (** a configuration value, and an [int], as Python objects *)
  obj_of_jdn : JDN -> PyObj;
  obj_of_int : Z -> PyObj;
  (** [s.isdigit()] and [int(s)] *)
  str_isdigit : string -> bool;
  int_of_str : string -> exn + Z;
  (** [glob.glob(pattern)] *)
  glob_glob : string -> list string;
  (** [os.path.expanduser(path)] *)
  os_expanduser : string -> string;
  (** the script's name without folder and suffix, as lines 113-115
      compute it from [sys.argv[0]] *)
  script_appname : string
}.

(** ** The outcome model of [caragols.lib.carp] *)

Module Carp.

(** Modelled from the spec: [carp.Report] is not part of [clix.py]. The
    spec gives a closed set of four kinds, each holding a body and an
    optional structured payload, with [indicates_failure] true for Failure
    and Exception and false for Success and Inconclusive. *)
Inductive Status : Type := Success | Inconclusive | Failure | Exception.

(** Modelled from the spec: the predicate that tells the failure kinds
    (Failure, Exception) from the others (Success, Inconclusive). *)
Definition indicates_failure (s : Status) : bool :=
  match s with
  | Success | Inconclusive => false
  | Failure | Exception => true
  end.

Section Payload.
Context {C : Condo}.

(** The [d['invoke']] dictionary of [do_explain]. *)
Record Invoke : Type := mk_invoke {
  inv_idiom : string;
  inv_method : string;
  inv_args : list string;
  inv_doc : option string
}.

(** What the application passes as [data]: the dictionary built by
    [do_explain], or whatever value an action hands over. *)
Inductive Dex : Type :=
| DexExplain (invoke : Invoke) (context : JDN)
| DexValue (v : JDN).

(** Modelled from the spec: an outcome holds its kind, a body text and an
    optional structured payload. *)
Record Report : Type := mk_report {
  status : Status;
  body : string;
  data : option Dex
}.
End Payload.

End Carp.
Import Carp.

(** ** [class App] *)

Module Clix.
Import Order PySort.

Section App.
Context {C : Condo} {R : Runtime}.

(** One record made by a [logger.<level>(msg)] call. *)
Definition LogRecord : Type := (Z * string)%type.

(** What a [print] under [self.mode == 'debug'] shows. The texts are
    f-strings over lists and tuples; a note keeps the values they format. *)
Inductive Note : Type :=
| NConfigurationSetup
| NSearching (folder : string)
| NLooking (confile : string)
| NAttrParsing
| NDispatchesFound (humanables : list string)
| NCreated (n : nat)
| NMatched (prefix : list string)
| NConfargs (confargs : list string)
| NBarewords (barewords : list string)
| NRunning
| NMatching (matched : option (list string * string * list string
                               * list (string * string)))
| NExecutableStart
| NExecutableComplete.

(** One [sys.stdout.write]: [report.formatted(form)] is kept as the pair
    it renders, the renderer being [carp]'s. *)
Inductive Written : Type :=
| WReport (r : Report) (form : JDN)
| WText (s : string)
| WNote (n : Note).

(** The attributes of [self] that change while the application runs, with
    the state of the [logging] module. [report = None] stands for an
    attribute that is unset or [None]: the run loop reads it with
    [getattr(self, 'report', None)]. [log] holds the records that the
    logger calls of the application made. *)
Record Store : Type := mk_store {
  comargs : list string;
  conf : Condex;
  report : option Report;
  log : list LogRecord;
  stdout : list Written;
  name_ : option string;
  logger : Logger;
  logging : LogState
}.

Definition set_comargs (c : list string) (s : Store) : Store :=
  mk_store c (conf s) (report s) (log s) (stdout s) (name_ s) (logger s) (logging s).
Definition set_conf (c : Condex) (s : Store) : Store :=
  mk_store (comargs s) c (report s) (log s) (stdout s) (name_ s) (logger s) (logging s).
Definition set_report (r : Report) (s : Store) : Store :=
  mk_store (comargs s) (conf s) (Some r) (log s) (stdout s) (name_ s) (logger s) (logging s).
Definition add_log (r : LogRecord) (s : Store) : Store :=
  mk_store (comargs s) (conf s) (report s) (log s ++ [r]) (stdout s) (name_ s)
           (logger s) (logging s).
Definition write (w : Written) (s : Store) : Store :=
  mk_store (comargs s) (conf s) (report s) (log s) (stdout s ++ [w]) (name_ s)
           (logger s) (logging s).
Definition set_name (n : string) (s : Store) : Store :=
  mk_store (comargs s) (conf s) (report s) (log s) (stdout s) (Some n)
           (logger s) (logging s).
Definition set_logger (l : Logger) (ls : LogState) (s : Store) : Store :=
  mk_store (comargs s) (conf s) (report s) (log s) (stdout s) (name_ s) l ls.
Definition set_logging (ls : LogState) (s : Store) : Store :=
  mk_store (comargs s) (conf s) (report s) (log s) (stdout s) (name_ s) (logger s) ls.

(** The two ways of leaving a method that returns nothing. *)
Inductive Step : Type :=
| Done (s : Store)
| Threw (e : exn) (s : Store).

(** The two ways of leaving [action(barewords, **xtraopts)]; the value an
    action returns is dropped by the run loop. *)
Inductive ActionResult : Type :=
| Finished (s : Store)
| RaisedIn (e : exn) (s : Store).

(** A bound method: [str(action)], [action.__doc__] and what calling it
    with the barewords and the keyword arguments does to [self]. *)
Record Method : Type := mk_method {
  m_repr : string;
  m_doc : option string;
  m_call : list string -> list (string * string) -> Store -> ActionResult
}.

(** An entry of [dir(self)]. *)
Inductive Attr : Type :=
| Callable (m : Method)
| NotCallable.

(** What a class contributes to its instances: its name, the class
    attribute [mode] when the class (or a base) defines one, [DEFAULTS],
    and [dir(self)], which Python lists sorted with no name twice. *)
Record PyClass : Type := mk_class {
  cls_name : string;
  cls_mode : option string;
  cls_DEFAULTS : list (string * Scalar);
  cls_dir : list (string * Attr)
}.

Definition Dispatch : Type := (list string * Method)%type.
Definition Idiom : Type := (nat * list string * Method)%type.

Definition gravity (i : Idiom) : nat := fst (fst i).
Definition tokens (i : Idiom) : list string := snd (fst i).
Definition action (i : Idiom) : Method := snd i.

(** An instance once [__init__] has reached the run loop. *)
Record App : Type := mk_app {
  app_class : PyClass;
  dispatches : list Dispatch;
  store : Store
}.

(** [self.mode]: the class attribute, or an [AttributeError]. *)
Definition get_mode (cls : PyClass) : exn + string :=
  match cls_mode cls with
  | Some m => inr m
  | None => inl (AttributeError (cls_name cls) "mode")
  end.

(** *** Printing and logging *)

(** [print(x)]: the text, then the line end. *)
Definition print (x : string) (s : Store) : Store :=
  write (WText Text.newline) (write (WText x) s).

Definition print_note (n : Note) (s : Store) : Store :=
  write (WText Text.newline) (write (WNote n) s).

(** [self.mode == 'debug'], where [self.mode] has been read before. *)
Definition mode_is_debug (cls : PyClass) : bool :=
  match cls_mode cls with
  | Some m => String.eqb m "debug"
  | None => false
  end.

(** [if self.mode == 'debug': print(...)] *)
Definition noted (cls : PyClass) (n : Note) (s : Store) : Store :=
  if mode_is_debug cls then print_note n s else s.

(** [self.logger.<level>(msg)], lines 92-105: a record is made when the
    logger is enabled for the severity. *)
Definition emit (level : Z) (msg : string) (s : Store) : Store :=
  if logger_isEnabledFor (logging s) (logger s) level
  then add_log (level, msg) s else s.

(** *** [App.name], lines 110-117 *)

Definition self_name (s : Store) : string * Store :=
  match name_ s with
  | Some n => (n, s)
  | None => (script_appname, set_name script_appname s)
  end.

(** *** The configuration methods, lines 123-174 *)

Fixpoint last_char (s : string) : option ascii :=
  match s with
  | EmptyString => None
  | String c EmptyString => Some c
  | String _ s' => last_char s'
  end.

(** [os.path.join(a, b)] of [posixpath]. *)
Definition path_join (a b : string) : string :=
  if String.prefix "/" b then b
  else match last_char a with
       | None => b
       | Some c => if Ascii.eqb c "/"%char then a ++ b else a ++ "/" ++ b
       end.

(** [_get_configuration_folders], for the value of [self.name]. *)
Definition configuration_folders (n : string) : list string :=
  [("/etc/" ++ n)%string; os_expanduser ("~/.config/" ++ n)].

(** The inner loop of [configure], lines 144-153. Line 145 reads
    [self.mode] once for each file. *)
Fixpoint load_confiles (cls : PyClass) (confiles : list string) (s : Store) : Step :=
  match confiles with
  | [] => Done s
  | confile :: rest =>
      match get_mode cls with
      | inl e => Threw e s
      | inr _ =>
          let s := noted cls (NLooking confile) s in
          let s := emit Logging.DEBUG ("looking for configuration in " ++ confile) s in
          match condex_load confile with
          | inl e => Threw e s
          | inr nuconf =>
              load_confiles cls rest (set_conf (condex_update (conf s) nuconf) s)
          end
      end
  end.

(** The outer loop of [configure], lines 139-153. Line 140 reads
    [self.mode] once for each folder. *)
Fixpoint configure_folders (cls : PyClass) (folders : list string) (s : Store) : Step :=
  match folders with
  | [] => Done s
  | folder :: rest =>
      match get_mode cls with
      | inl e => Threw e s
      | inr _ =>
          let s := noted cls (NSearching folder) s in
          match load_confiles cls (glob_glob (path_join folder "conf*.yml")) s with
          | Threw e s' => Threw e s'
          | Done s' => configure_folders cls rest s'
          end
      end
  end.

Definition configure (cls : PyClass) (s : Store) : Step :=
  let '(n, s) := self_name s in
  configure_folders cls (configuration_folders n) s.

(** [initialize_logger], lines 155-158. *)
Definition initialize_logger (s : Store) : Step :=
  let s := set_logger logging_root (logging_basicConfig (logging s)) s in
  let level := condex_get (conf s) "log.level" (jdn_of_scalar (SInt Logging.WARN)) in
  match logger_setLevel (logging s) (logger s) (obj_of_jdn level) with
  | inl e => Threw e s
  | inr ls => Done (set_logging ls s)
  end.

(** Lines 165-173: the level that [log.level] stands for. *)
Definition level_of_grade (grade : JDN) : exn + PyObj :=
  match jdn_as_str grade with
  | Some g =>
      if str_isdigit g then
        match int_of_str g with
        | inl e => inl e
        | inr z => inr (obj_of_int z)
        end
      else
        inr (match logging_vars g with
             | Some o => o
             | None => obj_of_int Logging.NOTSET
             end)
  | None => inr (obj_of_jdn grade)
  end.

(** [configure_logger], lines 160-174. *)
Definition configure_logger (s : Store) : Step :=
  let '(n, s) := self_name s in
  match logging_getLogger (logging s)
                          (condex_get (conf s) "log.key" (jdn_of_scalar (SStr n))) with
  | inl e => Threw e s
  | inr (lg, ls) =>
      let s := set_logger lg ls s in
      if condex_contains (conf s) "log.level" then
        match condex_item (conf s) "log.level" with
        | inl e => Threw e s
        | inr grade =>
            match level_of_grade grade with
            | inl e => Threw e s
            | inr level =>
                match logger_setLevel (logging s) (logger s) level with
                | inl e => Threw e s
                | inr ls' => Done (set_logging ls' s)
                end
            end
        end
      else Done s
  end.

(** *** The dispatch table, lines 72-78 *)

(** [attr[3:].split('_')] *)
Definition tokens_of_attr (attr : string) : list string :=
  Text.split "_"%char (Text.drop 3 attr).

Fixpoint scan_dir (d : list (string * Attr)) : list Dispatch :=
  match d with
  | [] => []
  | (attr, a) :: d' =>
      if String.prefix "do_" attr then
        match a with
        | Callable m => (tokens_of_attr attr, m) :: scan_dir d'
        | NotCallable => scan_dir d'
        end
      else scan_dir d'
  end.

(** *** [App.idioms], lines 179-191 *)

(** The components of an idiom tuple that the sort compares. When two
    tuples agree on both, Python goes on to compare the two callables;
    [scan_dir] never yields such a pair (see [scan_dir_tokens_NoDup]). *)
Definition idiom_key (i : Idiom) : Key := (gravity i, tokens i).

Definition idiom_of (d : Dispatch) : Idiom :=
  (List.length (fst d), fst d, snd d).

(** The list, and [self] after the debug print of the list's length. *)
Definition idioms (app : App) : exn + (list Idiom * Store) :=
  let idioms := map idiom_of (dispatches app) in
  let idioms := sorted_reverse idiom_key idioms in
  match get_mode (app_class app) with
  | inl e => inl e
  | inr _ =>
      inr (idioms,
           noted (app_class app) (NCreated (List.length idioms)) (store app))
  end.

(** *** [App.cognize], lines 193-219 *)

Definition xtraopts : list (string * string) := [("xtraopt", "Pass for now")].

Definition tokens_eqb (a b : list string) : bool :=
  if list_eq_dec string_dec a b then true else false.

(** [comargs[:gravity] == tokens] *)
Definition matches (comargs : list string) (i : Idiom) : bool :=
  tokens_eqb (firstn (gravity i) comargs) (tokens i).

(** The [for ... break] loop: the first idiom of the list that matches. *)
Definition first_match (ids : list Idiom) (comargs : list string)
  : option Idiom :=
  find (matches comargs) ids.

(** The three ways of leaving [cognize]: an error of [self.idioms] or of
    [sed], [None], or the tuple [(tokens, action, barewords, xtraopts)];
    each with [self] as the call left it. *)
Inductive CogResult : Type :=
| CogRaised (e : exn) (s : Store)
| CogNone (s : Store)
| CogMatched (tokens : list string) (action : Method)
             (barewords : list string) (xtra : list (string * string))
             (s : Store).

Definition cognize (app : App) (comargs : list string) : CogResult :=
  let cls := app_class app in
  match idioms app with
  | inl e => CogRaised e (store app)
  | inr (ids, s) =>
      match first_match ids comargs with
      | Some i =>
          let s := noted cls (NMatched (firstn (gravity i) comargs)) s in
          let confargs := skipn (gravity i) comargs in
          match condex_sed (conf s) confargs with
          | SedDone c barewords =>
              CogMatched (tokens i) (action i) barewords xtraopts
                         (noted cls (NBarewords barewords)
                                (noted cls (NConfargs confargs) (set_conf c s)))
          | SedRaised e c => CogRaised e (set_conf c s)
          end
      | None => CogNone s
      end
  end.

(** [self] when the loop of [cognize] has stopped at [w]: after the debug
    prints of [idioms] and of the match. *)
Definition at_match (app : App) (comargs : list string) (w : Idiom) : Store :=
  noted (app_class app) (NMatched (firstn (gravity w) comargs))
        (noted (app_class app) (NCreated (List.length (dispatches app))) (store app)).

(** Lines 210-216: what [cognize] does once the loop has stopped at [w]. *)
Definition hand_over (app : App) (comargs : list string) (w : Idiom) : CogResult :=
  let confargs := skipn (gravity w) comargs in
  match condex_sed (conf (store app)) confargs with
  | SedDone c barewords =>
      CogMatched (tokens w) (action w) barewords xtraopts
                 (noted (app_class app) (NBarewords barewords)
                        (noted (app_class app) (NConfargs confargs)
                               (set_conf c (at_match app comargs w))))
  | SedRaised e c => CogRaised e (set_conf c (at_match app comargs w))
  end.

(** The order that [sorted(idioms, reverse=True)] leaves two idioms in:
    the first has the greater gravity, or they have the same gravity and
    the first's tokens are not below the second's. *)
Definition listed_before (a b : Idiom) : Prop :=
  gravity b < gravity a \/
  (gravity a = gravity b /\ Order.tokens_compare (tokens a) (tokens b) <> Lt).

(** *** The completion methods, lines 328-356 *)

Definition succeeded (msg : string) (dex : option Dex) (s : Store) : Store :=
  set_report (mk_report Success msg dex) s.

Definition finished (msg : string) (dex : option Dex) (s : Store) : Store :=
  set_report (mk_report Inconclusive msg dex) s.

Definition failed (msg : string) (dex : option Dex) (s : Store) : Store :=
  set_report (mk_report Failure msg dex) s.

Definition crashed (msg : string) (dex : option Dex) (s : Store) : Store :=
  emit Logging.CRITICAL msg (set_report (mk_report Exception msg dex) s).

(** *** [App.do_explain], lines 366-381 *)

Definition explain_doc (comwords : list string) (a : Method) : string :=
  Text.newline ++ Text.tab ++ Text.tab ++ "explaining "
    ++ Text.dquote ++ Text.join " " comwords ++ Text.dquote
    ++ Text.newline ++ Text.tab ++ Text.tab ++ Text.str_of_option (m_doc a)
    ++ Text.newline ++ Text.tab ++ Text.tab.

Definition explain_dex (comwords : list string) (a : Method)
           (barewords : list string) (s : Store) : Dex :=
  DexExplain
    {| inv_idiom := Text.join " " comwords;
       inv_method := m_repr a;
       inv_args := barewords;
       inv_doc := m_doc a |}
    (condex_toJDN (conf s)).

Definition do_explain (comwords : list string) (a : Method)
           (barewords : list string) (s : Store) : Store :=
  succeeded (explain_doc comwords a) (Some (explain_dex comwords a barewords s)) s.

(** *** [App.run], lines 232-313 *)

(** The three ways of leaving [run]: [sys.exit(code)], a returned value
    ([{'status': 'success'}] or [None]), or an error that nothing caught. *)
Inductive RunResult : Type :=
| Exited (code : Z) (s : Store)
| Returned (v : option (list (string * string))) (s : Store)
| Raised (e : exn) (s : Store).

Definition no_match_msg : string :=
  "Bad request due to no " ++ Text.dquote ++ "matched" ++ Text.dquote ++ "."
    ++ Text.newline ++ "try using " ++ Text.dquote ++ "help" ++ Text.dquote
    ++ " command?".

Definition no_report_msg : string := "no report returned by action!".

(** Lines 299-313: the missing-report check, the rendering and the exit.
    [done()] does nothing in [App]. *)
Definition finish (run_mode : string) (s : Store) : RunResult :=
  let '(r, s) :=
    match report s with
    | Some r => (r, s)
    | None => (mk_report Exception no_report_msg None,
               crashed no_report_msg None s)
    end in
  let form := condex_get (conf s) "report.form" (jdn_of_scalar (SStr "prose")) in
  if String.eqb run_mode "cli" then
    let s := write (WText Text.newline) (write (WReport r form) s) in
    if indicates_failure (status r) then Exited 1 s else Exited 0 s
  else if String.eqb run_mode "gui" then
    Returned (Some [("status", "success")]) s
  else Returned None s.

(** [self.comargs and (self.comargs[0] == 'explain')] *)
Definition is_explain (comargs : list string) : bool :=
  match comargs with
  | w :: _ => String.eqb w "explain"
  | [] => false
  end.

(** Lines 265-267: a leading [explain] is taken off [self.comargs]. *)
Definition strip_explain (app : App) : App :=
  let s := store app in
  mk_app (app_class app) (dispatches app)
         (if is_explain (comargs s) then set_comargs (skipn 1 (comargs s)) s
          else s).

(** Lines 240-243: the first debug print; [begun()] does nothing in [App]. *)
Definition started (app : App) : App :=
  mk_app (app_class app) (dispatches app)
         (noted (app_class app) NRunning (store app)).

(** Lines 270-274, after a match: the debug print of the tuple, then
    [self.configure_logger()], which nothing guards. *)
Definition prepare (cls : PyClass) (t : list string) (a : Method)
           (bw : list string) (x : list (string * string)) (s : Store) : Step :=
  configure_logger (noted cls (NMatching (Some (t, m_repr a, bw, x))) s).

(** Lines 280-288: the action called under [try], between its two debug
    prints; the second print is skipped when the action raises. *)
Definition invoke (cls : PyClass) (a : Method) (bw : list string)
           (x : list (string * string)) (s : Store) : ActionResult :=
  match m_call a bw x (noted cls NExecutableStart s) with
  | Finished s' => Finished (noted cls NExecutableComplete s')
  | RaisedIn err s' => RaisedIn err s'
  end.

(** Lines 276-288: the run loop once [cognize] has matched and the logger
    is configured. *)
Definition after_match (cls : PyClass) (explaining : bool) (run_mode : string)
           (t : list string) (a : Method) (bw : list string)
           (x : list (string * string)) (s1 : Store) : RunResult :=
  if explaining then finish run_mode (do_explain t a bw s1)
  else
    match invoke cls a bw x s1 with
    | Finished s2 => finish run_mode s2
    | RaisedIn err s2 =>
        if exn_derives_Exception err
        then finish run_mode (crashed (exn_str err) None s2)
        else Raised err s2
    end.

(** Lines 243-313. *)
Definition dispatch (app : App) (run_mode : string) : RunResult :=
  let cls := app_class app in
  let explaining := is_explain (comargs (store app)) in
  let app1 := strip_explain (started app) in
  match cognize app1 (comargs (store app1)) with
  | CogRaised e s => Raised e s
  | CogMatched tokens action barewords xtra s =>
      match prepare cls tokens action barewords xtra s with
      | Threw e s1 => Raised e s1
      | Done s1 => after_match cls explaining run_mode tokens action barewords xtra s1
      end
  | CogNone s =>
      finish run_mode (failed no_match_msg None (noted cls (NMatching None) s))
  end.

(** Line 240 reads [self.mode] before anything else. *)
Definition run (app : App) (run_mode : string) : RunResult :=
  match get_mode (app_class app) with
  | inl e => Raised e (store app)
  | inr _ => dispatch app run_mode
  end.

(** [self] as [run] leaves it. *)
Definition result_store (r : RunResult) : Store :=
  match r with
  | Exited _ s | Returned _ s | Raised _ s => s
  end.

(** [self] when [cognize] has answered [None]: after the debug prints of
    [run], of [idioms] and of the answer. *)
Definition unmatched (app : App) : Store :=
  noted (app_class app) (NMatching None)
        (noted (app_class app) (NCreated (List.length (dispatches app)))
               (store (strip_explain (started app)))).

(** The report that line 305 renders: the one the action left, or the one
    that line 300 makes up. *)
Definition the_report (s : Store) : Report :=
  match report s with
  | Some r => r
  | None => mk_report Exception no_report_msg None
  end.

Definition reported (s : Store) : Store :=
  match report s with
  | Some _ => s
  | None => crashed no_report_msg None s
  end.

(** [self.conf.get('report.form', 'prose')] *)
Definition form_of (s : Store) : JDN :=
  condex_get (conf s) "report.form" (jdn_of_scalar (SStr "prose")).

(** The code of lines 308-311. *)
Definition exit_code (r : Report) : Z :=
  if indicates_failure (status r) then 1%Z else 0%Z.

(** The two writes of lines 305-306. *)
Definition rendered (s : Store) : Store :=
  write (WText Text.newline) (write (WReport (the_report s) (form_of (reported s))) (reported s)).

(** What [s'] shares with [s] when only the cached name, the logger and
    the levels of the loggers may differ. *)
Definition same_data (s s' : Store) : Prop :=
  comargs s' = comargs s /\ conf s' = conf s /\ report s' = report s /\
  log s' = log s /\ stdout s' = stdout s.

(** *** [App.__init__], lines 40-87 *)

(** The attributes assigned by lines 41-45, before [self.mode] is read. *)
Record Partial : Type := mk_partial {
  p_run_mode : string;
  p_comargs : list string;
  p_actions : list Method;
  p_dispatches : list Dispatch;
  p_name : option string
}.

(** [__init__] raises at line 46 with the object as far as it was built,
    raises later from the logger set-up or from a configuration file, or
    reaches [self.run]. *)
Inductive InitResult : Type :=
| InitRaised (e : exn) (p : Partial)
| InitThrew (e : exn) (s : Store)
| InitRan (app : App) (r : RunResult).

(** [self.DEFAULTS] after lines 49-50. *)
Definition chosen_defaults (cls : PyClass) (defaults : option (list (string * Scalar)))
  : list (string * Scalar) :=
  match defaults with
  | Some (d :: ds) => d :: ds
  | _ => cls_DEFAULTS cls
  end.

(** [self.conf] after lines 48-53. *)
Definition initial_conf (cls : PyClass) (defaults : option (list (string * Scalar)))
  : Condex :=
  match chosen_defaults cls defaults with
  | [] => condex_new
  | d :: ds => condex_update_dict condex_new (d :: ds)
  end.

(** Lines 70-82: the dispatch table between its two debug prints. *)
Definition scanned (cls : PyClass) (p : Partial) (s : Store) : App :=
  let s := noted cls NAttrParsing s in
  let table := p_dispatches p ++ scan_dir (cls_dir cls) in
  mk_app cls table
         (noted cls (NDispatchesFound (map (fun v => Text.join " " (fst v)) table)) s).

(** [ls] is the state of the [logging] module when the constructor is
    called. *)
Definition init (cls : PyClass) (name : option string) (run_mode : string)
           (comargs : list string) (defaults : option (list (string * Scalar)))
           (ls : LogState) : InitResult :=
  let p := {| p_run_mode := run_mode; p_comargs := comargs; p_actions := [];
              p_dispatches := []; p_name := name |} in
  match get_mode cls with
  | inl e => InitRaised e p
  | inr _ =>
      let s := noted cls NConfigurationSetup
                     (mk_store comargs (initial_conf cls defaults) None [] []
                               name logging_root ls) in
      match initialize_logger s with
      | Threw e s1 => InitThrew e s1
      | Done s1 =>
          match configure cls s1 with
          | Threw e s2 => InitThrew e s2
          | Done s2 =>
              match configure_logger s2 with
              | Threw e s3 => InitThrew e s3
              | Done s3 =>
                  let app := scanned cls p s3 in
                  InitRan app (run app run_mode)
              end
          end
      end
  end.

(** *** [class App] itself *)

(** [do_explain] called as an action: the run loop passes one positional
    argument where three are required, so the call raises [TypeError]. *)
Definition do_explain_method : Method :=
  {| m_repr := "<bound method App.do_explain>";
     m_doc := None;
     m_call := fun _ _ s =>
       RaisedIn (mk_exn "TypeError" true
         "App.do_explain() missing 2 required positional arguments: 'action' and 'barewords'") s |}.

(** The base class: no [mode], and [do_explain] among its attributes.
    [do_help] is left out of the listing; its body reads [self.name] and
    the dispatch table that holds it. *)
Definition App_class : PyClass :=
  {| cls_name := "App";
     cls_mode := None;
     cls_DEFAULTS := [("log.level", SInt Logging.WARN); ("report.form", SStr "prose")];
     cls_dir := [("DEFAULTS", NotCallable); ("do_explain", Callable do_explain_method)] |}.

End App.

End Clix.

(** ** A configuration tree to run the application on *)

Module CondoSpec.

(** Modelled from the spec: [condo.Condex] is not part of [clix.py]. A
    Configuration Node is a Mapping (unique keys, insertion order kept), a
    Sequence or a Scalar; the root is a Mapping. *)
#[local] Unset Elimination Schemes.
Inductive Node : Type :=
| NNull
| NBool (b : bool)
| NInt (z : Z)
| NStr (s : string)
| NSeq (l : list Node)
| NMap (m : list (string * Node)).
#[local] Set Elimination Schemes.

(** Modelled from the spec: the tree is created empty. *)
Definition empty : Node := NMap [].

(** Modelled from the spec: a Mapping as an association list with unique
    keys; a new key goes to the end, an existing key keeps its place. *)
Fixpoint lookup (k : string) (m : list (string * Node)) : option Node :=
  match m with
  | [] => None
  | (k', v) :: m' => if String.eqb k k' then Some v else lookup k m'
  end.

Fixpoint assoc_set (k : string) (v : Node) (m : list (string * Node))
  : list (string * Node) :=
  match m with
  | [] => [(k, v)]
  | (k', v') :: m' =>
      if String.eqb k k' then (k, v) :: m' else (k', v') :: assoc_set k v m'
  end.

Fixpoint assoc_del (k : string) (m : list (string * Node))
  : list (string * Node) :=
  match m with
  | [] => []
  | (k', v') :: m' =>
      if String.eqb k k' then m' else (k', v') :: assoc_del k m'
  end.

(** Modelled from the spec: a Path is the dotted key split on [.]. *)
Definition path_of (key : string) : list string := Text.split "."%char key.

(** Modelled from the spec: the three errors of the error taxonomy that
    the tree and the mutation interpreter raise. *)
Definition ConfigurationConflict (key : string) : exn :=
  mk_exn "ConfigurationConflict" true key.
Definition MutationSyntaxError (tok : string) : exn :=
  mk_exn "MutationSyntaxError" true tok.
Definition ConfigurationLoadError (name : string) : exn :=
  mk_exn "ConfigurationLoadError" true name.

(** Modelled from the spec: [get(path, default)] gives the node at the
    path, or the default when a segment is absent. *)
Fixpoint get (path : list string) (t : Node) : option Node :=
  match path with
  | [] => Some t
  | k :: path' =>
      match t with
      | NMap m =>
          match lookup k m with
          | Some child => get path' child
          | None => None
          end
      | _ => None
      end
  end.

(** Modelled from the spec: [set(path, value)] creates the intermediate
    Mappings that are absent and fails with a Configuration Conflict when
    an intermediate segment is not a Mapping. *)
Fixpoint set (path : list string) (v : Node) (t : Node) : option Node :=
  match path with
  | [] => Some v
  | k :: path' =>
      match t with
      | NMap m =>
          let child := match lookup k m with
                       | Some c => c
                       | None => empty
                       end in
          match path' with
          | [] => Some (NMap (assoc_set k v m))
          | _ :: _ =>
              match set path' v child with
              | Some child' => Some (NMap (assoc_set k child' m))
              | None => None
              end
          end
      | _ => None
      end
  end.

(** Modelled from the spec: Delete removes the path if present; an absent
    path is not an error. *)
Fixpoint del (path : list string) (t : Node) : Node :=
  match path, t with
  | [k], NMap m => NMap (assoc_del k m)
  | k :: path', NMap m =>
      match lookup k m with
      | Some child => NMap (assoc_set k (del path' child) m)
      | None => t
      end
  | _, _ => t
  end.

(** Modelled from the spec: [update(other)] deep-merges: where both sides
    are Mappings the merge recurses, otherwise the other side's value
    replaces this one's. *)
Fixpoint update (this other : Node) {struct other} : Node :=
  match other with
  | NMap mo =>
      match this with
      | NMap mt =>
          NMap ((fix go (l acc : list (string * Node)) {struct l} :=
                   match l with
                   | [] => acc
                   | (k, v) :: l' =>
                       go l' (assoc_set k
                                (match lookup k acc with
                                 | Some old => update old v
                                 | None => v
                                 end) acc)
                   end) mo mt)
      | _ => other
      end
  | _ => other
  end.

(** Modelled from the spec: directives are told by the last character;
    this gives the token without its last character, and that character. *)
Fixpoint unsnoc (s : string) : option (string * ascii) :=
  match s with
  | EmptyString => None
  | String c s' =>
      match unsnoc s' with
      | None => Some (EmptyString, c)
      | Some (r, l) => Some (String c r, l)
      end
  end.

(** Modelled from the spec: the six token shapes. *)
Inductive Directive : Type :=
| DSet (key : string)
| DAppend (key : string)
| DFlag (key : string)
| DDelete (key : string)
| DLoad (name : string)
| DBareword.

(** Modelled from the spec: the directive table of the mutation
    micro-language; recognition by the trailing or leading character. *)
Definition classify (tok : string) : Directive :=
  match unsnoc tok with
  | Some (key, ":"%char) => DSet key
  | Some (key, "+"%char) => DAppend key
  | Some (key, "!"%char) => DFlag key
  | Some (key, "~"%char) => DDelete key
  | _ =>
      match tok with
      | String "^"%char name => DLoad name
      | _ => DBareword
      end
  end.

(** Modelled from the spec: Set on a dotted key; a path through a
    non-Mapping is a Configuration Conflict. *)
Definition set_key (key : string) (v : Node) (t : Node) : exn + Node :=
  match set (path_of key) v t with
  | Some t' => inr t'
  | None => inl (ConfigurationConflict key)
  end.

(** Modelled from the spec: Append makes a one-element Sequence at an
    absent path, extends a Sequence, and conflicts with anything else. *)
Definition append_key (key : string) (v : Node) (t : Node) : exn + Node :=
  match get (path_of key) t with
  | None => set_key key (NSeq [v]) t
  | Some (NSeq l) => set_key key (NSeq (l ++ [v])) t
  | Some _ => inl (ConfigurationConflict key)
  end.

(** Modelled from the spec: tokens are processed left to right, a Set or
    Append takes the next token raw as its operand and is a Mutation Syntax
    error without one, and mutations applied before a failing token stay. *)
Fixpoint sed_from (aliases : list (string * Node)) (t : Node)
         (toks : list string) (barewords : list string) : SedResult Node :=
  match toks with
  | [] => SedDone t (rev barewords)
  | tok :: rest =>
      match classify tok with
      | DSet key =>
          match rest with
          | [] => SedRaised (MutationSyntaxError tok) t
          | operand :: rest' =>
              match set_key key (NStr operand) t with
              | inr t' => sed_from aliases t' rest' barewords
              | inl e => SedRaised e t
              end
          end
      | DAppend key =>
          match rest with
          | [] => SedRaised (MutationSyntaxError tok) t
          | operand :: rest' =>
              match append_key key (NStr operand) t with
              | inr t' => sed_from aliases t' rest' barewords
              | inl e => SedRaised e t
              end
          end
      | DFlag key =>
          match set_key key (NBool true) t with
          | inr t' => sed_from aliases t' rest barewords
          | inl e => SedRaised e t
          end
      | DDelete key => sed_from aliases (del (path_of key) t) rest barewords
      | DLoad name =>
          match find (fun a => String.eqb (fst a) name) aliases with
          | Some (_, doc) => sed_from aliases (update t doc) rest barewords
          | None => SedRaised (ConfigurationLoadError name) t
          end
      | DBareword => sed_from aliases t rest (tok :: barewords)
      end
  end.

(** Modelled from the spec: Scalars are strings, numbers, booleans or
    null. *)
Definition node_of_scalar (v : Scalar) : Node :=
  match v with
  | SInt z => NInt z
  | SStr s => NStr s
  end.

(** Modelled from the spec: [update] with an equivalent mapping, here a
    dictionary of dotted keys merged entry by entry; an entry that would
    run through a non-Mapping is skipped. *)
Fixpoint update_dict (t : Node) (d : list (string * Scalar)) : Node :=
  match d with
  | [] => t
  | (key, v) :: d' =>
      match set (path_of key) (node_of_scalar v) t with
      | Some t' => update_dict t' d'
      | None => update_dict t d'
      end
  end.

(** Modelled from the spec: [get] never fails and falls back to the
    default. *)
Definition get_default (t : Node) (key : string) (default : Node) : Node :=
  match get (path_of key) t with
  | Some n => n
  | None => default
  end.

(** Modelled from the spec: [contains] is a presence test that does not
    tell an absent path from one that holds null. *)
Definition contains (t : Node) (key : string) : bool :=
  match get (path_of key) t with
  | Some NNull => false
  | Some _ => true
  | None => false
  end.

(** Modelled from the spec: reading a path that is absent is an error. *)
Definition item (t : Node) (key : string) : exn + Node :=
  match get (path_of key) t with
  | Some n => inr n
  | None => inl (mk_exn "KeyError" true key)
  end.

(** Modelled from the spec: [load] parses a document into a tree; a file
    that cannot be resolved is a Configuration Load error. [files] holds
    the documents by path. *)
Definition load (files : list (string * Node)) (confile : string) : exn + Node :=
  match find (fun f => String.eqb (fst f) confile) files with
  | Some (_, doc) => inr (update empty doc)
  | None => inl (ConfigurationLoadError confile)
  end.

Definition node_as_str (n : Node) : option string :=
  match n with
  | NStr s => Some s
  | _ => None
  end.

(** Modelled from the spec: the tree as an implementation of the
    interface, for a table of the documents that load aliases resolve to
    and a table of the configuration files; [serialize] gives the plain
    nested form, which is the tree itself. *)
Definition condo (aliases files : list (string * Node)) : Condo :=
  {| Condex := Node;
     JDN := Node;
     condex_new := empty;
     condex_update_dict := update_dict;
     condex_update := update;
     condex_load := load files;
     condex_sed := fun t toks => sed_from aliases t toks [];
     condex_toJDN := fun t => t;
     condex_get := get_default;
     condex_contains := contains;
     condex_item := item;
     jdn_of_scalar := node_of_scalar;
     jdn_as_str := node_as_str |}.

End CondoSpec.

(** ** A [logging] module and a file system to run the application on *)

Module PyLog.
Import CondoSpec.

(** The levels that were set: the root logger's, and the named loggers'. A
    logger without an entry has the level [NOTSET]. *)
Record State : Type := mk_state {
  root_level : Z;
  levels : list (string * Z)
}.

(** The [logging] module as imported: the root logger at [WARNING]. *)
Definition fresh : State := mk_state Logging.WARN [].

(** A logger: the root, or the one of a name. *)
Definition LoggerRef : Type := option string.

(** The objects that [setLevel] tells apart: an [int], a [str], any other. *)
Inductive Obj : Type :=
| OInt (z : Z)
| OStr (s : string)
| OOther.

Fixpoint assoc (k : string) (l : list (string * Z)) : option Z :=
  match l with
  | [] => None
  | (k', v) :: l' => if String.eqb k k' then Some v else assoc k l'
  end.

(** The level names of [logging]. *)
Definition level_names : list (string * Z) :=
  [("CRITICAL", 50%Z); ("FATAL", 50%Z); ("ERROR", 40%Z); ("WARN", 30%Z);
   ("WARNING", 30%Z); ("INFO", 20%Z); ("DEBUG", 10%Z); ("NOTSET", 0%Z)].

Definition set_level (st : State) (lg : LoggerRef) (z : Z) : State :=
  match lg with
  | None => mk_state z (levels st)
  | Some n => mk_state (root_level st) ((n, z) :: levels st)
  end.

(** [setLevel]: an [int] is taken as it is, a [str] must be a level name,
    anything else is a [TypeError], whose message goes on with the [repr]
    of the object. *)
Definition setLevel (st : State) (lg : LoggerRef) (o : Obj) : exn + State :=
  match o with
  | OInt z => inr (set_level st lg z)
  | OStr n =>
      match assoc n level_names with
      | Some z => inr (set_level st lg z)
      | None => inl (mk_exn "ValueError" true ("Unknown level: '" ++ n ++ "'"))
      end
  | OOther =>
      inl (mk_exn "TypeError" true "Level not an integer or a valid string")
  end.

(** [getLogger(name)]: a false name gives the root logger, a string its
    logger, any other object a [TypeError]. *)
Definition getLogger (st : State) (name : Node) : exn + (LoggerRef * State) :=
  match name with
  | NStr EmptyString => inr (None, st)
  | NStr n => if String.eqb n "root" then inr (None, st) else inr (Some n, st)
  | NNull | NBool false | NSeq [] | NMap [] => inr (None, st)
  | NInt z => if Z.eqb z 0 then inr (None, st)
              else inl (mk_exn "TypeError" true "A logger name must be a string")
  | _ => inl (mk_exn "TypeError" true "A logger name must be a string")
  end.

(** The names above a dotted name, nearest first. *)
Fixpoint ancestors (pieces : list string) : list string :=
  match pieces with
  | [] => []
  | p :: rest =>
      match rest with
      | [] => []
      | _ :: _ => ancestors rest ++ [Text.join "." (rev rest)]
      end
  end.

Fixpoint first_set (st : State) (names : list string) : Z :=
  match names with
  | [] => root_level st
  | n :: rest =>
      match assoc n (levels st) with
      | Some z => if Z.eqb z 0 then first_set st rest else z
      | None => first_set st rest
      end
  end.

(** [getEffectiveLevel]: the logger's level, or the first level set on the
    way up to the root. *)
Definition effective (st : State) (lg : LoggerRef) : Z :=
  match lg with
  | None => root_level st
  | Some n => first_set st (n :: rev (ancestors (rev (Text.split "."%char n))))
  end.

Definition isEnabledFor (st : State) (lg : LoggerRef) (level : Z) : bool :=
  Z.leb (effective st lg) level.

(** The level constants among the names of the module; its other names
    are left out. *)
Definition vars (name : string) : option Obj :=
  match assoc name level_names with
  | Some z => Some (OInt z)
  | None => None
  end.

Definition obj_of_node (n : Node) : Obj :=
  match n with
  | NInt z => OInt z
  | NBool b => OInt (if b then 1 else 0)
  | NStr s => OStr s
  | _ => OOther
  end.

Definition digit_of (c : ascii) : option Z :=
  let n := Z.of_nat (nat_of_ascii c) in
  if andb (Z.leb 48 n) (Z.leb n 57) then Some (n - 48)%Z else None.

(** [isdigit] on a text of ASCII characters. *)
Fixpoint all_digits (s : string) : bool :=
  match s with
  | EmptyString => true
  | String c s' => match digit_of c with Some _ => all_digits s' | None => false end
  end.

Definition isdigit (s : string) : bool :=
  match s with
  | EmptyString => false
  | String _ _ => all_digits s
  end.

Fixpoint decimal (acc : Z) (s : string) : option Z :=
  match s with
  | EmptyString => Some acc
  | String c s' =>
      match digit_of c with
      | Some d => decimal (10 * acc + d) s'
      | None => None
      end
  end.

Definition int_ (s : string) : exn + Z :=
  match s with
  | EmptyString => inl (mk_exn "ValueError" true "invalid literal for int()")
  | String _ _ =>
      match decimal 0 s with
      | Some z => inr z
      | None => inl (mk_exn "ValueError" true "invalid literal for int()")
      end
  end.

(** [expanduser] for a home folder: a leading [~/] becomes the folder. *)
Definition expanduser (home : string) (path : string) : string :=
  match path with
  | String "~"%char (String "/"%char rest) => home ++ "/" ++ rest
  | _ => path
  end.

Definition glob (found : list (string * list string)) (pattern : string) : list string :=
  match find (fun f => String.eqb (fst f) pattern) found with
  | Some (_, paths) => paths
  | None => []
  end.

(** The runtime for a home folder, a script name and the paths that each
    glob pattern finds. *)
Definition runtime (aliases files : list (string * Node)) (home appname : string)
           (found : list (string * list string))
  : @Runtime (condo aliases files) :=
  @Build_Runtime (condo aliases files)
    State LoggerRef Obj
    (fun st => st) None getLogger setLevel isEnabledFor vars obj_of_node OInt
    isdigit int_ (glob found) (expanduser home) appname.

End PyLog.

(** ** Sample subclasses *)

Module Demo.
Import Clix.

(** The interface instances of the samples: no load aliases, no
    configuration files, a script called [maker]. *)
Definition demo_condo : Condo := CondoSpec.condo [] [].
#[local] Existing Instance demo_condo.
Definition demo_runtime : Runtime := PyLog.runtime [] [] "/home/user" "maker" [].
#[local] Existing Instance demo_runtime.

(** An action that ends with [self.succeeded(...)]. *)
Definition reports (repr msg : string) : Method :=
  {| m_repr := repr;
     m_doc := Some msg;
     m_call := fun _ _ s => Finished (succeeded msg None s) |}.

(** An action that raises [ValueError(msg)]. *)
Definition raises (repr msg : string) : Method :=
  {| m_repr := repr;
     m_doc := None;
     m_call := fun _ _ s => RaisedIn (mk_exn "ValueError" true msg) s |}.

(** An action that returns without calling a completion method. *)
Definition silent (repr : string) : Method :=
  {| m_repr := repr;
     m_doc := None;
     m_call := fun _ _ s => Finished s |}.

Definition do_make : Method := reports "<bound method Maker.do_make>" "made".
Definition do_make_catalog : Method :=
  reports "<bound method Maker.do_make_catalog>" "catalog made".
Definition do_boom : Method := raises "<bound method Maker.do_boom>" "boom".
Definition do_silent : Method := silent "<bound method Maker.do_silent>".

(** An action that is interrupted: [KeyboardInterrupt] derives from
    [BaseException] only. *)
Definition do_stop : Method :=
  {| m_repr := "<bound method Maker.do_stop>";
     m_doc := None;
     m_call := fun _ _ s => RaisedIn (mk_exn "KeyboardInterrupt" false EmptyString) s |}.

(** A subclass of [App] that defines [mode] and five actions. *)
Definition Maker : PyClass :=
  {| cls_name := "Maker";
     cls_mode := Some "run";
     cls_DEFAULTS := cls_DEFAULTS App_class;
     cls_dir := [("DEFAULTS", NotCallable);
                 ("do_boom", Callable do_boom);
                 ("do_explain", Callable do_explain_method);
                 ("do_make", Callable do_make);
                 ("do_make_catalog", Callable do_make_catalog);
                 ("do_silent", Callable do_silent);
                 ("do_stop", Callable do_stop);
                 ("mode", NotCallable)] |}.

(** A subclass whose only action of its own is named by the bare prefix. *)
Definition do_ : Method := reports "<bound method Bare.do_>" "bare".

Definition Bare : PyClass :=
  {| cls_name := "Bare";
     cls_mode := Some "run";
     cls_DEFAULTS := cls_DEFAULTS App_class;
     cls_dir := [("do_", Callable do_); ("mode", NotCallable)] |}.

(** The same actions as [Maker] in a class without [mode]. *)
Definition Modeless : PyClass :=
  {| cls_name := "Modeless";
     cls_mode := None;
     cls_DEFAULTS := cls_DEFAULTS App_class;
     cls_dir := cls_dir Maker |}.

(** [Maker] with the debug prints on. *)
Definition Chatty : PyClass :=
  {| cls_name := "Chatty";
     cls_mode := Some "debug";
     cls_DEFAULTS := cls_DEFAULTS App_class;
     cls_dir := cls_dir Maker |}.

(** [self] as [__init__] hands it to the run loop when nothing was
    printed: the name cached, the logger of that name at the level of the
    defaults. *)
Definition store_of (cls : PyClass) (comargs : list string) : Store :=
  mk_store comargs (initial_conf cls None) None [] [] (Some "maker")
           (Some "maker") (PyLog.mk_state 30 [("maker", 30%Z)]).

(** The instance that [__init__] hands to the run loop. *)
Definition app_of (cls : PyClass) (comargs : list string) : App :=
  mk_app cls (scan_dir (cls_dir cls)) (store_of cls comargs).

(** A site with two configuration files, the second overriding a key of
    the first, and the root logger open at debug level. *)
Definition site_files : list (string * CondoSpec.Node) :=
  [("/etc/maker/a.yml",
    CondoSpec.NMap [("colour", CondoSpec.NStr "red"); ("size", CondoSpec.NInt 1)]);
   ("/etc/maker/b.yml", CondoSpec.NMap [("colour", CondoSpec.NStr "blue")])].
Definition site_condo : Condo := CondoSpec.condo [] site_files.
Definition site_runtime : @Runtime site_condo :=
  PyLog.runtime [] site_files "/home/user" "maker" [].
Definition Site : @PyClass site_condo site_runtime :=
  @mk_class site_condo site_runtime "Site" (Some "run") [] [].
Definition site_store : @Store site_condo site_runtime :=
  @mk_store site_condo site_runtime [] CondoSpec.empty None [] [] None None
            (PyLog.mk_state 10 []).

End Demo.
(** ** [App.do_help] and [class TestApp] *)

Module ClixMore.
Import Order Clix.

Section More.
Context {C : Condo} {R : Runtime}.

(** [c in s] for one character. *)
Fixpoint has_char (c : ascii) (s : string) : bool :=
  match s with
  | EmptyString => false
  | String d s' => if Ascii.eqb d c then true else has_char c s'
  end.

(** *** [App.do_help], lines 383-396 *)

Definition tokens_ltb (a b : list string) : bool :=
  match tokens_compare a b with Lt => true | _ => false end.

(** [sorted(self.dispatches)]: ascending on the token sequences, which is
    as far as the tuple comparison goes when no token sequence is held
    twice; an entry goes before the entries that are not below it, so
    equal token sequences keep their order. *)
Fixpoint insert_asc (x : Dispatch) (l : list Dispatch) : list Dispatch :=
  match l with
  | [] => [x]
  | y :: l' =>
      if tokens_ltb (fst y) (fst x) then y :: insert_asc x l' else x :: l
  end.

Definition sorted_dispatches (l : list Dispatch) : list Dispatch :=
  fold_right insert_asc [] l.

(** ["* {} {}".format(self.name, " ".join(tokens))] *)
Definition help_header (name : string) (d : Dispatch) : string :=
  "* " ++ name ++ " " ++ Text.join " " (fst d).

(** The lines of [action.__doc__], when it is neither [None] nor empty. *)
Definition help_doc_lines (a : Method) : list string :=
  match m_doc a with
  | Some (String c doc) => Text.split (ascii_of_nat 10) (String c doc)
  | Some EmptyString => []
  | None => []
  end.

Definition help_entry (name : string) (d : Dispatch) : list string :=
  help_header name d :: help_doc_lines (snd d).

Definition help_lines (name : string) (l : list Dispatch) : list string :=
  flat_map (help_entry name) (sorted_dispatches l).

(** [name] is [self.name] and [l] is [self.dispatches]. *)
Definition do_help (name : string) (l : list Dispatch) (barewords : list string)
           (s : Store) : Store :=
  succeeded (Text.join Text.newline (help_lines name l)) None s.

(** *** [class TestApp], lines 403-423 *)

(** The [TypeError] of a call with a keyword that the function lacks. *)
Definition unexpected_keyword (qualname keyword : string) : exn :=
  mk_exn "TypeError" true
         (qualname ++ "() got an unexpected keyword argument '" ++ keyword ++ "'").

(** A method [def do_x(self, args)] that prints a banner and then every
    argument. It takes no keyword arguments, so a call with any raises
    before the body runs. *)
Definition test_action (qualname banner : string) : Method :=
  {| m_repr := "<bound method " ++ qualname ++ ">";
     m_doc := None;
     m_call := fun args xtra s =>
       match xtra with
       | [] => Finished (fold_left (fun s' arg => print arg s') args (print banner s))
       | (keyword, _) :: _ => RaisedIn (unexpected_keyword qualname keyword) s
       end |}.

Definition do_something : Method :=
  test_action "TestApp.do_something" "do something".
Definition do_something_else : Method :=
  test_action "TestApp.do_something_else" "do something else".
Definition do_other_things : Method :=
  test_action "TestApp.do_other_things" "do other things".

Definition TestApp_actions : list Method :=
  [do_something; do_something_else; do_other_things].

(** The subclass: three actions and no [mode]. The listing leaves out
    [do_help] and [test], whose bodies need the instance itself. *)
Definition TestApp_class : PyClass :=
  {| cls_name := "TestApp";
     cls_mode := None;
     cls_DEFAULTS := cls_DEFAULTS App_class;
     cls_dir := [("DEFAULTS", NotCallable);
                 ("do_explain", Callable do_explain_method);
                 ("do_other_things", Callable do_other_things);
                 ("do_something", Callable do_something);
                 ("do_something_else", Callable do_something_else)] |}.

(** [TestApp.test]: [cls()] with the defaults of [__init__]; the [app.run()]
    after it is reached only if the construction returns. *)
Definition TestApp_test (ls : LogState) : InitResult :=
  init TestApp_class None "cli" ["help"] None ls.

(** A subclass that only adds the class attribute [mode]. *)
Definition with_mode (m : string) (cls : PyClass) : PyClass :=
  mk_class (cls_name cls) (Some m) (cls_DEFAULTS cls) (cls_dir cls).

End More.

End ClixMore.

(** * Properties *)

(** ** Splitting and joining *)

Module TextFacts.
Import Text.

Lemma split_not_nil (sep : ascii) (s : string) : split sep s <> [].
Proof.
  induction s as [|c s IH]; simpl; [discriminate|].
  destruct (Ascii.eqb c sep); [discriminate|].
  destruct (split sep s); discriminate.
Qed.

Lemma split_length_pos (sep : ascii) (s : string) :
  1 <= List.length (split sep s).
Proof.
  pose proof (split_not_nil sep s) as H.
  destruct (split sep s); [congruence | simpl; lia].
Qed.

(** Joining the pieces with the separator gives the string back. *)
Lemma join_split (sep : ascii) (s : string) :
  join (String sep EmptyString) (split sep s) = s.
Proof.
  unfold join.
  induction s as [|c s IH]; simpl; [reflexivity|].
  destruct (Ascii.eqb_spec c sep) as [->|Hne].
  - pose proof (split_not_nil sep s) as Hnil.
    destruct (split sep s) as [|w ws] eqn:E; [congruence|].
    simpl in *. now rewrite IH.
  - pose proof (split_not_nil sep s) as Hnil.
    destruct (split sep s) as [|w ws] eqn:E; [congruence|].
    simpl in *. destruct ws; simpl in *; now rewrite <- IH.
Qed.

Lemma split_inj (sep : ascii) (s t : string) :
  split sep s = split sep t -> s = t.
Proof.
  intros H. rewrite <- (join_split sep s), <- (join_split sep t).
  now rewrite H.
Qed.

Lemma drop_append (p s : string) : drop (String.length p) (p ++ s)%string = s.
Proof. induction p; simpl; auto. Qed.

Lemma prefix_append (p s : string) :
  String.prefix p s = true -> s = (p ++ drop (String.length p) s)%string.
Proof.
  revert s. induction p as [|c p IH]; intros s H.
  - reflexivity.
  - destruct s as [|d s]; simpl in H; [discriminate|].
    destruct (ascii_dec c d) as [->|]; [|discriminate].
    simpl. f_equal. now apply IH.
Qed.

End TextFacts.

(** ** The tuple order is a total order *)

Module OrderFacts.
Import Order.

Lemma ascii_compare_refl (c : ascii) : Ascii.compare c c = Eq.
Proof. unfold Ascii.compare. apply N.compare_refl. Qed.

Lemma ascii_compare_lt_trans (a b c : ascii) :
  Ascii.compare a b = Lt -> Ascii.compare b c = Lt -> Ascii.compare a c = Lt.
Proof.
  unfold Ascii.compare. rewrite !N.compare_lt_iff. apply N.lt_trans.
Qed.

Lemma string_compare_refl (s : string) : String.compare s s = Eq.
Proof.
  induction s as [|c s IH]; simpl; [reflexivity|].
  now rewrite ascii_compare_refl.
Qed.

Lemma string_compare_lt_trans (s t u : string) :
  String.compare s t = Lt -> String.compare t u = Lt -> String.compare s u = Lt.
Proof.
  revert t u. induction s as [|a s IH]; intros [|b t] [|c u]; simpl;
    try discriminate; try reflexivity.
  destruct (Ascii.compare a b) eqn:Eab; try discriminate;
    destruct (Ascii.compare b c) eqn:Ebc; try discriminate; intros H1 H2.
  - apply Ascii.compare_eq_iff in Eab, Ebc. subst.
    rewrite ascii_compare_refl. eauto.
  - apply Ascii.compare_eq_iff in Eab. subst. now rewrite Ebc.
  - apply Ascii.compare_eq_iff in Ebc. subst. now rewrite Eab.
  - now rewrite (ascii_compare_lt_trans _ _ _ Eab Ebc).
Qed.

Lemma tokens_compare_refl (a : list string) : tokens_compare a a = Eq.
Proof.
  induction a as [|x a IH]; simpl; [reflexivity|].
  now rewrite string_compare_refl.
Qed.

Lemma tokens_compare_eq (a b : list string) :
  tokens_compare a b = Eq -> a = b.
Proof.
  revert b. induction a as [|x a IH]; intros [|y b]; simpl;
    try discriminate; try reflexivity.
  destruct (String.compare x y) eqn:E; try discriminate.
  intros H. apply String.compare_eq_iff in E. f_equal; auto.
Qed.

Lemma tokens_compare_antisym (a b : list string) :
  tokens_compare a b = CompOpp (tokens_compare b a).
Proof.
  revert b. induction a as [|x a IH]; intros [|y b]; simpl; try reflexivity.
  rewrite (String.compare_antisym y x).
  destruct (String.compare x y); simpl; auto.
Qed.

Lemma tokens_compare_lt_trans (a b c : list string) :
  tokens_compare a b = Lt -> tokens_compare b c = Lt -> tokens_compare a c = Lt.
Proof.
  revert b c. induction a as [|x a IH]; intros [|y b] [|z c]; simpl;
    try discriminate; try reflexivity.
  destruct (String.compare x y) eqn:Exy; try discriminate;
    destruct (String.compare y z) eqn:Eyz; try discriminate; intros H1 H2.
  - apply String.compare_eq_iff in Exy, Eyz. subst.
    rewrite string_compare_refl. eauto.
  - apply String.compare_eq_iff in Exy. subst. now rewrite Eyz.
  - apply String.compare_eq_iff in Eyz. subst. now rewrite Exy.
  - now rewrite (string_compare_lt_trans _ _ _ Exy Eyz).
Qed.

Lemma key_compare_refl (k : Key) : key_compare k k = Eq.
Proof.
  unfold key_compare. rewrite Nat.compare_refl. apply tokens_compare_refl.
Qed.

Lemma key_compare_eq (k1 k2 : Key) : key_compare k1 k2 = Eq -> k1 = k2.
Proof.
  destruct k1 as [g1 t1], k2 as [g2 t2]. unfold key_compare. simpl.
  destruct (Nat.compare g1 g2) eqn:E; try discriminate.
  intros H. apply Nat.compare_eq in E. apply tokens_compare_eq in H.
  congruence.
Qed.

Lemma key_compare_antisym (k1 k2 : Key) :
  key_compare k1 k2 = CompOpp (key_compare k2 k1).
Proof.
  unfold key_compare. rewrite (Nat.compare_antisym (fst k1) (fst k2)).
  destruct (Nat.compare (fst k1) (fst k2)); simpl; auto.
  apply tokens_compare_antisym.
Qed.

Lemma key_compare_lt_trans (k1 k2 k3 : Key) :
  key_compare k1 k2 = Lt -> key_compare k2 k3 = Lt -> key_compare k1 k3 = Lt.
Proof.
  unfold key_compare.
  destruct (Nat.compare (fst k1) (fst k2)) eqn:E12; try discriminate;
    destruct (Nat.compare (fst k2) (fst k3)) eqn:E23; try discriminate;
    intros H1 H2.
  - apply Nat.compare_eq in E12, E23.
    replace (Nat.compare (fst k1) (fst k3)) with Eq
      by (symmetry; apply Nat.compare_eq_iff; congruence).
    eapply tokens_compare_lt_trans; eauto.
  - apply Nat.compare_eq in E12. rewrite E12. now rewrite E23.
  - apply Nat.compare_eq in E23. rewrite <- E23. now rewrite E12.
  - apply Nat.compare_lt_iff in E12, E23.
    replace (Nat.compare (fst k1) (fst k3)) with Lt; [reflexivity|].
    symmetry. apply Nat.compare_lt_iff. lia.
Qed.

Lemma key_geb_refl (k : Key) : key_geb k k = true.
Proof. unfold key_geb, key_ltb. now rewrite key_compare_refl. Qed.

Lemma key_geb_total (k1 k2 : Key) : key_geb k1 k2 = true \/ key_geb k2 k1 = true.
Proof.
  unfold key_geb, key_ltb. rewrite (key_compare_antisym k2 k1).
  destruct (key_compare k1 k2); simpl; auto.
Qed.

Lemma key_geb_trans (k1 k2 k3 : Key) :
  key_geb k1 k2 = true -> key_geb k2 k3 = true -> key_geb k1 k3 = true.
Proof.
  unfold key_geb, key_ltb. intros H12 H23.
  destruct (key_compare k1 k3) eqn:E13; try reflexivity.
  destruct (key_compare k1 k2) eqn:E12; try discriminate.
  - apply key_compare_eq in E12. subst. now rewrite E13 in H23.
  - destruct (key_compare k2 k3) eqn:E23; try discriminate.
    + apply key_compare_eq in E23. subst. congruence.
    + rewrite key_compare_antisym in E12, E23.
      assert (key_compare k2 k1 = Lt) by (destruct (key_compare k2 k1); simpl in *; congruence).
      assert (key_compare k3 k2 = Lt) by (destruct (key_compare k3 k2); simpl in *; congruence).
      pose proof (key_compare_lt_trans _ _ _ E13 H0) as C.
      pose proof (key_compare_lt_trans _ _ _ H C) as C'.
      now rewrite key_compare_refl in C'.
Qed.

Lemma key_geb_antisym (k1 k2 : Key) :
  key_geb k1 k2 = true -> key_geb k2 k1 = true -> k1 = k2.
Proof.
  unfold key_geb, key_ltb. rewrite (key_compare_antisym k2 k1).
  destruct (key_compare k1 k2) eqn:E; simpl; try discriminate.
  intros _ _. now apply key_compare_eq.
Qed.

(** A greater-or-equal key has a greater-or-equal first component. *)
Lemma key_geb_fst (k1 k2 : Key) : key_geb k1 k2 = true -> fst k2 <= fst k1.
Proof.
  unfold key_geb, key_ltb, key_compare.
  destruct (Nat.compare (fst k1) (fst k2)) eqn:E; intros H.
  - apply Nat.compare_eq in E. lia.
  - discriminate.
  - apply Nat.compare_gt_iff in E. lia.
Qed.

End OrderFacts.

(** ** The descending sort *)

Module PySortFacts.
Import Order OrderFacts PySort.

Section Sorted.
Variable A : Type.
Variable key : A -> Key.

Local Abbreviation insert_desc := (insert_desc key).
Local Abbreviation sorted_reverse := (sorted_reverse key).
Local Abbreviation desc := (desc key).

Lemma insert_desc_perm (x : A) (l : list A) :
  Permutation (x :: l) (insert_desc x l).
Proof.
  induction l as [|y l IH]; simpl; [apply Permutation_refl|].
  destruct (key_ltb (key x) (key y)); [|apply Permutation_refl].
  eapply perm_trans; [apply perm_swap|]. now apply perm_skip.
Qed.

Lemma sorted_reverse_perm (l : list A) : Permutation l (sorted_reverse l).
Proof.
  induction l as [|x l IH]; simpl; [constructor|].
  eapply perm_trans; [apply perm_skip, IH|]. apply insert_desc_perm.
Qed.

Lemma sorted_reverse_in (l : list A) (x : A) :
  In x (sorted_reverse l) <-> In x l.
Proof.
  split; intros H.
  - eapply Permutation_in; [apply Permutation_sym, sorted_reverse_perm|exact H].
  - eapply Permutation_in; [apply sorted_reverse_perm|exact H].
Qed.

Lemma desc_trans (a b c : A) : desc a b -> desc b c -> desc a c.
Proof. unfold desc. apply key_geb_trans. Qed.

Lemma insert_desc_sorted (x : A) (l : list A) :
  StronglySorted desc l -> StronglySorted desc (insert_desc x l).
Proof.
  induction 1 as [|y l Hs IH Hall]; simpl.
  - constructor; constructor.
  - destruct (key_ltb (key x) (key y)) eqn:E.
    + constructor; [exact IH|].
      apply Forall_forall. intros z Hz.
      apply (Permutation_in _ (Permutation_sym (insert_desc_perm x l))) in Hz.
      destruct Hz as [<-|Hz].
      * unfold desc, key_geb, key_ltb in *.
        rewrite key_compare_antisym.
        destruct (key_compare (key x) (key y)); simpl; try discriminate.
        reflexivity.
      * rewrite Forall_forall in Hall. auto.
    + assert (Hxy : desc x y) by (unfold desc, key_geb; now rewrite E).
      constructor; [now constructor|].
      constructor; [exact Hxy|].
      eapply Forall_impl; [|exact Hall].
      intros z Hz. eapply desc_trans; eauto.
Qed.

Lemma sorted_reverse_sorted (l : list A) :
  StronglySorted desc (sorted_reverse l).
Proof.
  induction l as [|x l IH]; simpl; [constructor|].
  now apply insert_desc_sorted.
Qed.

(** The first element of a descending list that passes a test may stand
    before every element that passes it. *)
Lemma find_sorted_first (p : A -> bool) (l : list A) (w : A) :
  StronglySorted desc l -> find p l = Some w ->
  forall z, In z l -> p z = true -> desc w z.
Proof.
  induction 1 as [|y l Hs IH Hall]; simpl; [discriminate|].
  destruct (p y) eqn:Ey.
  - intros [= <-] z [<-|Hz] Hp; [apply key_geb_refl|].
    rewrite Forall_forall in Hall. now apply Hall.
  - intros Hf z [<-|Hz] Hp; [congruence|]. now apply IH.
Qed.

(** So it has the greatest first key component among them. *)
Lemma find_sorted_greatest (p : A -> bool) (l : list A) (w : A) :
  StronglySorted desc l -> find p l = Some w ->
  forall z, In z l -> p z = true -> fst (key z) <= fst (key w).
Proof.
  intros Hs Hf z Hz Hp. apply key_geb_fst.
  exact (find_sorted_first p l w Hs Hf z Hz Hp).
Qed.

(** Every element that stands before the first one passing a test fails
    the test. *)
Lemma find_first (p : A -> bool) (l : list A) (w : A) :
  find p l = Some w ->
  exists l1 l2, l = l1 ++ w :: l2 /\ p w = true /\
                forall z, In z l1 -> p z = false.
Proof.
  induction l as [|y l IH]; simpl; [discriminate|].
  destruct (p y) eqn:Ey.
  - intros [= <-]. exists [], l. repeat split; auto. intros z [].
  - intros Hf. destruct (IH Hf) as (l1 & l2 & -> & Hw & Hl1).
    exists (y :: l1), l2. repeat split; auto.
    intros z [<-|Hz]; auto.
Qed.

End Sorted.

End PySortFacts.

(** ** The resolver and the run loop *)

Module ClixFacts.
Import Order OrderFacts PySort PySortFacts Clix.

Section Facts.
Context {C : Condo} {R : Runtime}.

(** The idiom tuples before sorting. *)
Local Abbreviation table app := (map idiom_of (dispatches app)).

(** *** What a debug print and a logger call leave alone *)

Lemma noted_quiet (cls : PyClass) (n : Note) (s : Store) :
  mode_is_debug cls = false -> noted cls n s = s.
Proof. unfold noted. now intros ->. Qed.

Lemma noted_comargs (cls : PyClass) (n : Note) (s : Store) :
  comargs (noted cls n s) = comargs s.
Proof. unfold noted. destruct (mode_is_debug cls); reflexivity. Qed.

Lemma noted_conf (cls : PyClass) (n : Note) (s : Store) :
  conf (noted cls n s) = conf s.
Proof. unfold noted. destruct (mode_is_debug cls); reflexivity. Qed.

Lemma noted_report (cls : PyClass) (n : Note) (s : Store) :
  report (noted cls n s) = report s.
Proof. unfold noted. destruct (mode_is_debug cls); reflexivity. Qed.

Lemma noted_log (cls : PyClass) (n : Note) (s : Store) :
  log (noted cls n s) = log s.
Proof. unfold noted. destruct (mode_is_debug cls); reflexivity. Qed.

Lemma noted_logger (cls : PyClass) (n : Note) (s : Store) :
  logger (noted cls n s) = logger s.
Proof. unfold noted. destruct (mode_is_debug cls); reflexivity. Qed.

Lemma noted_logging (cls : PyClass) (n : Note) (s : Store) :
  logging (noted cls n s) = logging s.
Proof. unfold noted. destruct (mode_is_debug cls); reflexivity. Qed.

Lemma noted_stdout (cls : PyClass) (n : Note) (s : Store) :
  stdout (noted cls n s) =
    if mode_is_debug cls then stdout s ++ [WNote n; WText Text.newline]
    else stdout s.
Proof.
  unfold noted. destruct (mode_is_debug cls); [|reflexivity].
  simpl. now rewrite <- app_assoc.
Qed.

Lemma emit_comargs (l : Z) (msg : string) (s : Store) :
  comargs (emit l msg s) = comargs s.
Proof. unfold emit. destruct (logger_isEnabledFor _ _ _); reflexivity. Qed.

Lemma emit_conf (l : Z) (msg : string) (s : Store) : conf (emit l msg s) = conf s.
Proof. unfold emit. destruct (logger_isEnabledFor _ _ _); reflexivity. Qed.

Lemma emit_report (l : Z) (msg : string) (s : Store) :
  report (emit l msg s) = report s.
Proof. unfold emit. destruct (logger_isEnabledFor _ _ _); reflexivity. Qed.

Lemma emit_stdout (l : Z) (msg : string) (s : Store) :
  stdout (emit l msg s) = stdout s.
Proof. unfold emit. destruct (logger_isEnabledFor _ _ _); reflexivity. Qed.

Lemma emit_log (l : Z) (msg : string) (s : Store) :
  log (emit l msg s) =
    if logger_isEnabledFor (logging s) (logger s) l then log s ++ [(l, msg)]
    else log s.
Proof. unfold emit. destruct (logger_isEnabledFor _ _ _); reflexivity. Qed.

(** Reads a field through the debug prints and logger calls before it. *)
Ltac through :=
  rewrite ?noted_comargs, ?noted_conf, ?noted_report, ?noted_log,
    ?noted_logger, ?noted_logging, ?emit_comargs, ?emit_conf, ?emit_report,
    ?emit_stdout.

Lemma crashed_report (msg : string) (dex : option Dex) (s : Store) :
  report (crashed msg dex s) = Some (mk_report Exception msg dex).
Proof. unfold crashed. now rewrite emit_report. Qed.

Lemma crashed_log (msg : string) (dex : option Dex) (s : Store) :
  log (crashed msg dex s) =
    if logger_isEnabledFor (logging s) (logger s) Logging.CRITICAL
    then log s ++ [(Logging.CRITICAL, msg)] else log s.
Proof. unfold crashed. now rewrite emit_log. Qed.

Lemma crashed_conf (msg : string) (dex : option Dex) (s : Store) :
  conf (crashed msg dex s) = conf s.
Proof. unfold crashed. now rewrite emit_conf. Qed.

Lemma crashed_stdout (msg : string) (dex : option Dex) (s : Store) :
  stdout (crashed msg dex s) = stdout s.
Proof. unfold crashed. now rewrite emit_stdout. Qed.

(** *** The resolver *)

Lemma get_mode_defined (cls : PyClass) (m : string) :
  cls_mode cls = Some m -> get_mode cls = inr m.
Proof. unfold get_mode. now intros ->. Qed.

Lemma get_mode_missing (cls : PyClass) :
  cls_mode cls = None -> get_mode cls = inl (AttributeError (cls_name cls) "mode").
Proof. unfold get_mode. now intros ->. Qed.

Lemma ranked_length (app : App) :
  List.length (sorted_reverse idiom_key (table app)) = List.length (dispatches app).
Proof.
  rewrite <- (Permutation_length (sorted_reverse_perm Idiom idiom_key (table app))).
  apply length_map.
Qed.

Lemma idioms_defined (app : App) (m : string) :
  cls_mode (app_class app) = Some m ->
  idioms app =
    inr (sorted_reverse idiom_key (table app),
         noted (app_class app) (NCreated (List.length (dispatches app))) (store app)).
Proof.
  intros H. unfold idioms. rewrite (get_mode_defined _ _ H).
  now rewrite ranked_length.
Qed.

Lemma tokens_eqb_true (a b : list string) : tokens_eqb a b = true <-> a = b.
Proof.
  unfold tokens_eqb. destruct (list_eq_dec string_dec a b); split;
    congruence.
Qed.

Lemma matches_true (comargs : list string) (i : Idiom) :
  matches comargs i = true <-> firstn (gravity i) comargs = tokens i.
Proof. apply tokens_eqb_true. Qed.

Lemma matches_false (comargs : list string) (i : Idiom) :
  matches comargs i = false <-> firstn (gravity i) comargs <> tokens i.
Proof.
  rewrite <- matches_true. destruct (matches comargs i); split; congruence.
Qed.

Lemma idiom_of_gravity (d : Dispatch) :
  gravity (idiom_of d) = List.length (tokens (idiom_of d)).
Proof. reflexivity. Qed.

Lemma table_gravity (app : App) (i : Idiom) :
  In i (table app) -> gravity i = List.length (tokens i).
Proof.
  intros H. apply in_map_iff in H. destruct H as (d & <- & _).
  apply idiom_of_gravity.
Qed.

(** A matching idiom makes the loop of [cognize] stop at some idiom. *)
Lemma first_match_exists (ids : list Idiom) (comargs : list string) (i : Idiom) :
  In i ids -> matches comargs i = true ->
  exists w, first_match ids comargs = Some w.
Proof.
  unfold first_match. intros Hin Hm.
  destruct (find (matches comargs) ids) as [w|] eqn:E; [eauto|].
  pose proof (find_none _ _ E i Hin). congruence.
Qed.

Lemma first_match_none (ids : list Idiom) (comargs : list string) :
  (forall i, In i ids -> firstn (gravity i) comargs <> tokens i) ->
  first_match ids comargs = None.
Proof.
  unfold first_match. intros H.
  destruct (find (matches comargs) ids) as [w|] eqn:E; [|reflexivity].
  apply find_some in E. destruct E as [Hin Hm].
  apply matches_true in Hm. now apply H in Hin.
Qed.

Lemma cognize_first_match (app : App) (m : string) (cmd : list string) :
  cls_mode (app_class app) = Some m ->
  cognize app cmd =
    match first_match (sorted_reverse idiom_key (table app)) cmd with
    | Some w => hand_over app cmd w
    | None =>
        CogNone (noted (app_class app) (NCreated (List.length (dispatches app)))
                       (store app))
    end.
Proof.
  intros H. unfold cognize. rewrite (idioms_defined _ _ H).
  destruct (first_match _ cmd) as [w|]; [|reflexivity].
  unfold hand_over, at_match. now rewrite !noted_conf.
Qed.

(** C1. Resolution selects, among the registered idioms whose tokens equal
    the command's prefix of their length, one of the greatest gravity, and
    hands the rest of the command, [comargs[gravity:]], to the mutation
    parser. In particular, with the idioms [make] and [make catalog], the
    command [make catalog x] resolves to [make catalog] with [x] left. *)
Theorem cognize_longest_match :
  (forall (app : App) (m : string) (comargs : list string) (i : Idiom),
      cls_mode (app_class app) = Some m ->
      In i (table app) ->
      firstn (gravity i) comargs = tokens i ->
      exists w ids,
        idioms app =
          inr (ids, noted (app_class app) (NCreated (List.length ids)) (store app)) /\
        first_match ids comargs = Some w /\
        In w (table app) /\
        firstn (gravity w) comargs = tokens w /\
        (forall j, In j (table app) ->
                   firstn (gravity j) comargs = tokens j ->
                   gravity j <= gravity w) /\
        cognize app comargs = hand_over app comargs w) /\
  (forall (cls : PyClass) (m : string) (s : Store) (a1 a2 : Method),
      cls_mode cls = Some m ->
      let app := mk_app cls [(["make"], a1); (["make"; "catalog"], a2)] s in
      let s' := noted cls (NMatched ["make"; "catalog"]) (noted cls (NCreated 2) s) in
      cognize app ["make"; "catalog"; "x"] =
        match condex_sed (conf s) ["x"] with
        | SedDone c barewords =>
            CogMatched ["make"; "catalog"] a2 barewords xtraopts
                       (noted cls (NBarewords barewords)
                              (noted cls (NConfargs ["x"]) (set_conf c s')))
        | SedRaised e c => CogRaised e (set_conf c s')
        end).
Proof.
  split.
  - intros app m cmd i Hmode Hin Hmatch.
    set (ids := sorted_reverse idiom_key (table app)).
    assert (Hin' : In i ids) by now apply sorted_reverse_in.
    apply matches_true in Hmatch.
    destruct (first_match_exists ids cmd i Hin' Hmatch) as [w Hw].
    exists w, ids.
    pose proof Hw as Hsome. unfold first_match in Hsome.
    apply find_some in Hsome. destruct Hsome as [Hwin Hwm].
    repeat split.
    + unfold idioms. now rewrite (get_mode_defined _ _ Hmode).
    + exact Hw.
    + now apply sorted_reverse_in in Hwin.
    + now apply matches_true.
    + intros j Hj Hjm.
      apply (find_sorted_greatest Idiom idiom_key (matches cmd) ids w).
      * apply sorted_reverse_sorted.
      * exact Hw.
      * now apply sorted_reverse_in.
      * now apply matches_true.
    + rewrite (cognize_first_match _ _ _ Hmode). fold ids. now rewrite Hw.
  - intros cls m s a1 a2 Hmode app s'.
    rewrite (cognize_first_match app m _ Hmode). reflexivity.
Qed.

Lemma desc_listed_before (a b : Idiom) :
  desc idiom_key a b <-> listed_before a b.
Proof.
  unfold desc, listed_before, key_geb, key_ltb, key_compare, idiom_key. simpl.
  destruct (Nat.compare (gravity a) (gravity b)) eqn:E.
  - apply Nat.compare_eq in E.
    destruct (tokens_compare (tokens a) (tokens b)); simpl; split;
      intros H; try reflexivity; try discriminate;
      try (right; split; [exact E|discriminate]);
      destruct H as [H|[_ H]]; try lia; congruence.
  - apply Nat.compare_lt_iff in E. simpl. split; [discriminate|].
    intros [H|[H _]]; lia.
  - apply Nat.compare_gt_iff in E. simpl. split; auto.
Qed.

(** C9. The candidates are walked by gravity descending and, at equal
    gravity, by token sequence descending; the idiom that wins is the
    first match in that order, so no matching idiom of its gravity has a
    token sequence above the winner's. *)
Theorem idioms_order (app : App) (m : string) :
  cls_mode (app_class app) = Some m ->
  exists ids,
    idioms app =
      inr (ids, noted (app_class app) (NCreated (List.length ids)) (store app)) /\
    Permutation (table app) ids /\
    StronglySorted listed_before ids /\
    forall comargs w,
      first_match ids comargs = Some w ->
      (exists l1 l2, ids = l1 ++ w :: l2 /\
                     forall z, In z l1 -> matches comargs z = false) /\
      (forall a, In a ids -> matches comargs a = true ->
                 gravity a = gravity w ->
                 tokens_compare (tokens a) (tokens w) <> Gt).
Proof.
  intros Hmode. exists (sorted_reverse idiom_key (table app)).
  pose proof (sorted_reverse_sorted Idiom idiom_key (table app)) as Hs.
  split; [unfold idioms; now rewrite (get_mode_defined _ _ Hmode)|].
  split; [apply sorted_reverse_perm|].
  split; [|intros cmd w H; split].
  - clear Hmode. induction Hs as [|y l Hs IH Hall]; constructor; [exact IH|].
    eapply Forall_impl; [|exact Hall]. intros z. apply desc_listed_before.
  - destruct (find_first Idiom (matches cmd) _ w H) as (l1 & l2 & E & _ & Hl).
    eauto.
  - intros a Ha Hm Hg.
    pose proof (find_sorted_first Idiom idiom_key (matches cmd) _ w Hs H a Ha Hm)
      as Hd.
    apply desc_listed_before in Hd. destruct Hd as [Hd|[_ Hd]]; [lia|].
    rewrite tokens_compare_antisym.
    destruct (tokens_compare (tokens w) (tokens a)); simpl; congruence.
Qed.

(** *** The dispatch table *)

Lemma scan_dir_in (d : list (string * Attr)) (t : list string) (a : Method) :
  In (t, a) (scan_dir d) <->
  exists attr, In (attr, Callable a) d /\ String.prefix "do_" attr = true /\
               t = tokens_of_attr attr.
Proof.
  induction d as [|[attr x] d IH]; simpl.
  - split; [intros []|intros (? & [] & _)].
  - destruct (String.prefix "do_" attr) eqn:Ep; [destruct x as [m|]|].
    + simpl. rewrite IH. split.
      * intros [[= <- <-]|(attr' & Hin & Hp & Ht)]; eauto 6.
      * intros (attr' & [[= <- <-]|Hin] & Hp & Ht); [left; congruence|eauto 6].
    + rewrite IH. split.
      * intros (attr' & Hin & Hp & Ht); eauto 6.
      * intros (attr' & [[=]|Hin] & Hp & Ht); eauto 6.
    + rewrite IH. split.
      * intros (attr' & Hin & Hp & Ht); eauto 6.
      * intros (attr' & [[= <- <-]|Hin] & Hp & Ht); [congruence|eauto 6].
Qed.

Lemma tokens_of_attr_pos (attr : string) : 1 <= List.length (tokens_of_attr attr).
Proof. apply TextFacts.split_length_pos. Qed.

(** Two action names give two token sequences. *)
Lemma tokens_of_attr_inj (a b : string) :
  String.prefix "do_" a = true -> String.prefix "do_" b = true ->
  tokens_of_attr a = tokens_of_attr b -> a = b.
Proof.
  intros Ha Hb H. apply TextFacts.split_inj in H.
  rewrite (TextFacts.prefix_append _ _ Ha), (TextFacts.prefix_append _ _ Hb).
  simpl String.length. now rewrite H.
Qed.

Lemma scan_dir_attr (d : list (string * Attr)) (t : list string) :
  In t (map fst (scan_dir d)) ->
  exists attr, In attr (map fst d) /\ String.prefix "do_" attr = true /\
               t = tokens_of_attr attr.
Proof.
  intros H. apply in_map_iff in H. destruct H as ([t' a] & <- & Hin).
  apply scan_dir_in in Hin. destruct Hin as (attr & Hin & Hp & Ht).
  exists attr. repeat split; auto.
  apply in_map_iff. now exists (attr, Callable a).
Qed.

(** [dir] lists no name twice, so the table holds no token sequence twice
    and the sort of [idioms] never has to compare two callables. *)
Lemma scan_dir_tokens_NoDup (d : list (string * Attr)) :
  NoDup (map fst d) -> NoDup (map fst (scan_dir d)).
Proof.
  induction d as [|[attr x] d IH]; simpl; intros Hnd; [constructor|].
  inversion Hnd as [|? ? Hnotin Hnd']; subst.
  destruct (String.prefix "do_" attr) eqn:Ep; [destruct x as [m|]|]; auto.
  simpl. constructor; auto.
  intros Hin. apply scan_dir_attr in Hin.
  destruct Hin as (attr' & Hin & Hp & Ht).
  apply tokens_of_attr_inj in Ht; auto. now subst.
Qed.

(** So no two idioms of a table built by [__init__] agree on gravity and
    tokens: the descending order of such a table is unique. *)
Lemma built_table_keys_NoDup (cls : PyClass) (s : Store) :
  NoDup (map fst (cls_dir cls)) ->
  NoDup (map idiom_key (table (mk_app cls (scan_dir (cls_dir cls)) s))).
Proof.
  intros Hnd. apply scan_dir_tokens_NoDup in Hnd. simpl.
  induction (scan_dir (cls_dir cls)) as [|d l IH]; simpl; [constructor|].
  inversion Hnd as [|? ? Hnotin Hnd']; subst.
  constructor; [|now apply IH].
  intros Hin. apply Hnotin.
  apply in_map_iff in Hin. destruct Hin as (i & Hk & Hi).
  apply in_map_iff in Hi. destruct Hi as (d' & <- & Hd').
  apply in_map_iff. exists d'. split; [|exact Hd'].
  unfold idiom_key, idiom_of, gravity, tokens in Hk. simpl in Hk.
  now injection Hk.
Qed.

Lemma table_gravity_pos (cls : PyClass) (s : Store) (i : Idiom) :
  In i (table (mk_app cls (scan_dir (cls_dir cls)) s)) -> 1 <= gravity i.
Proof.
  simpl. intros H. apply in_map_iff in H. destruct H as ([t a] & <- & Hin).
  apply scan_dir_in in Hin. destruct Hin as (attr & _ & _ & ->).
  apply tokens_of_attr_pos.
Qed.

(** *** The construction *)

Lemma get_mode_inr (cls : PyClass) (m : string) :
  get_mode cls = inr m -> cls_mode cls = Some m.
Proof. unfold get_mode. destruct (cls_mode cls); congruence. Qed.

(** [__init__] reaches the run loop only through line 46 and the three
    configuration steps. *)
Lemma init_ran (cls : PyClass) (name : option string) (run_mode : string)
      (cmd : list string) (defaults : option (list (string * Scalar)))
      (ls : LogState) (app : App) (r : RunResult) :
  init cls name run_mode cmd defaults ls = InitRan app r ->
  exists m s,
    cls_mode cls = Some m /\
    app = mk_app cls (scan_dir (cls_dir cls)) s /\
    r = run app run_mode.
Proof.
  unfold init. destruct (get_mode cls) as [e|m] eqn:Hm; [discriminate|].
  destruct (initialize_logger _) as [s1|e s1]; [|discriminate].
  destruct (configure cls s1) as [s2|e s2]; [|discriminate].
  destruct (configure_logger s2) as [s3|e s3]; [|discriminate].
  intros [= <- <-]. exists m. eexists.
  split; [now apply get_mode_inr|]. split; reflexivity.
Qed.

(** C8, as the code has it. When [__init__] reaches the run loop it has
    registered, for every callable attribute whose name starts with [do_],
    the name without the prefix split on [_]; [idioms] then holds exactly
    one idiom for each registered dispatch, with the token count as its
    gravity. That count is never zero: the bare prefix [do_] gives the one
    token [''], and no idiom matches the empty command line. *)
Theorem dispatch_table_built
        (cls : PyClass) (name : option string) (run_mode : string)
        (cmd : list string) (defaults : option (list (string * Scalar)))
        (ls : LogState) (app : App) (r : RunResult) :
  init cls name run_mode cmd defaults ls = InitRan app r ->
  r = run app run_mode /\
  app_class app = cls /\
  (forall t a, In (t, a) (dispatches app) <->
               exists attr, In (attr, Callable a) (cls_dir cls) /\
                            String.prefix "do_" attr = true /\
                            t = Text.split "_"%char (Text.drop 3 attr)) /\
  (exists ids,
      idioms app =
        inr (ids, noted cls (NCreated (List.length ids)) (store app)) /\
      Permutation (map idiom_of (dispatches app)) ids /\
      (forall t a, In (t, a) (dispatches app) -> In (List.length t, t, a) ids) /\
      (forall i, In i ids ->
                 In (tokens i, action i) (dispatches app) /\
                 gravity i = List.length (tokens i) /\ 1 <= gravity i) /\
      first_match ids [] = None) /\
  tokens_of_attr "do_" = [EmptyString] /\
  cognize app [] =
    CogNone (noted cls (NCreated (List.length (dispatches app))) (store app)).
Proof.
  intros Hinit. destruct (init_ran _ _ _ _ _ _ _ _ Hinit) as (m & s & Hmode & -> & ->).
  set (app := mk_app cls (scan_dir (cls_dir cls)) s).
  assert (Hpos : forall i, In i (sorted_reverse idiom_key (table app)) ->
                           In (tokens i, action i) (dispatches app) /\
                           gravity i = List.length (tokens i) /\ 1 <= gravity i).
  { intros i Hi. apply sorted_reverse_in in Hi.
    pose proof (table_gravity app i Hi) as Hg.
    pose proof (table_gravity_pos cls (store app) i Hi) as Hp.
    apply in_map_iff in Hi. destruct Hi as ([t a] & <- & Hin). auto. }
  assert (Hnone : first_match (sorted_reverse idiom_key (table app)) [] = None).
  { apply first_match_none. intros i Hi. destruct (Hpos i Hi) as (_ & Hg & Hp).
    rewrite firstn_nil. intros E. rewrite <- E in Hg. simpl in Hg. lia. }
  split; [reflexivity|]. split; [reflexivity|].
  split; [intros t a; apply scan_dir_in|].
  split; [exists (sorted_reverse idiom_key (table app))|split; [reflexivity|]].
  - split; [unfold idioms; change (get_mode (app_class app)) with (get_mode cls);
            now rewrite (get_mode_defined _ _ Hmode)|].
    split; [apply sorted_reverse_perm|].
    split; [|split; [exact Hpos|exact Hnone]].
    intros t a Hin. apply sorted_reverse_in. apply in_map_iff.
    exists (t, a). split; [reflexivity|exact Hin].
  - rewrite (cognize_first_match app m [] Hmode). now rewrite Hnone.
Qed.

(** *** Leaving the run loop *)

Lemma reported_report (s : Store) : report (reported s) = Some (the_report s).
Proof.
  unfold reported, the_report. destruct (report s) eqn:E; auto.
  apply crashed_report.
Qed.

Lemma reported_log (s : Store) :
  log (reported s) =
    match report s with
    | Some _ => log s
    | None =>
        if logger_isEnabledFor (logging s) (logger s) Logging.CRITICAL
        then log s ++ [(Logging.CRITICAL, no_report_msg)] else log s
    end.
Proof. unfold reported. destruct (report s); [reflexivity|apply crashed_log]. Qed.

Lemma reported_stdout (s : Store) : stdout (reported s) = stdout s.
Proof. unfold reported. destruct (report s); [reflexivity|apply crashed_stdout]. Qed.

Lemma reported_conf (s : Store) : conf (reported s) = conf s.
Proof. unfold reported. destruct (report s); [reflexivity|apply crashed_conf]. Qed.

Lemma finish_eq (run_mode : string) (s : Store) :
  finish run_mode s =
    if String.eqb run_mode "cli" then
      Exited (exit_code (the_report s)) (rendered s)
    else if String.eqb run_mode "gui" then
      Returned (Some [("status", "success")]) (reported s)
    else Returned None (reported s).
Proof.
  unfold finish, rendered, reported, the_report, form_of, exit_code.
  destruct (report s) as [r|]; simpl;
    destruct (String.eqb run_mode "cli"); try reflexivity.
  destruct (indicates_failure (status r)); reflexivity.
Qed.

Lemma finish_cli (s : Store) :
  finish "cli" s = Exited (exit_code (the_report s)) (rendered s).
Proof. now rewrite finish_eq. Qed.

Lemma finish_gui (s : Store) :
  finish "gui" s = Returned (Some [("status", "success")]) (reported s).
Proof. now rewrite finish_eq. Qed.

Lemma finish_report (run_mode : string) (s : Store) :
  report (result_store (finish run_mode s)) = Some (the_report s).
Proof.
  rewrite finish_eq.
  destruct (String.eqb run_mode "cli"); [|destruct (String.eqb run_mode "gui")];
    simpl; apply reported_report.
Qed.

Lemma finish_log (run_mode : string) (s : Store) :
  log (result_store (finish run_mode s)) = log (reported s).
Proof.
  rewrite finish_eq.
  destruct (String.eqb run_mode "cli"); [|destruct (String.eqb run_mode "gui")];
    reflexivity.
Qed.

Lemma finish_conf (run_mode : string) (s : Store) :
  conf (result_store (finish run_mode s)) = conf s.
Proof.
  rewrite finish_eq.
  destruct (String.eqb run_mode "cli"); [|destruct (String.eqb run_mode "gui")];
    simpl; apply reported_conf.
Qed.

Lemma finish_exited (run_mode : string) (s s' : Store) (code : Z) :
  finish run_mode s = Exited code s' ->
  run_mode = "cli" /\ code = exit_code (the_report s) /\ s' = rendered s.
Proof.
  rewrite finish_eq. destruct (String.eqb_spec run_mode "cli") as [->|_].
  - now intros [= <- <-].
  - destruct (String.eqb run_mode "gui"); discriminate.
Qed.

Lemma finish_returned (run_mode : string) (s s' : Store)
      (v : option (list (string * string))) :
  finish run_mode s = Returned v s' ->
  run_mode <> "cli" /\ s' = reported s /\
  ((run_mode = "gui" /\ v = Some [("status", "success")]) \/
   (run_mode <> "gui" /\ v = None)).
Proof.
  rewrite finish_eq. destruct (String.eqb_spec run_mode "cli") as [->|Hcli];
    [discriminate|].
  destruct (String.eqb_spec run_mode "gui") as [->|Hgui]; intros [= <- <-]; auto.
Qed.

Lemma finish_not_raised (run_mode : string) (s s' : Store) (e : exn) :
  finish run_mode s <> Raised e s'.
Proof.
  rewrite finish_eq.
  destruct (String.eqb run_mode "cli"); [|destruct (String.eqb run_mode "gui")];
    discriminate.
Qed.

Lemma rendered_report (s : Store) : report (rendered s) = Some (the_report s).
Proof. unfold rendered. simpl. apply reported_report. Qed.

Lemma rendered_stdout (s : Store) :
  stdout (rendered s) =
    stdout s ++ [WReport (the_report s) (form_of (reported s)); WText Text.newline].
Proof.
  unfold rendered. simpl. rewrite reported_stdout, <- app_assoc. reflexivity.
Qed.

Lemma exit_code_spec (r : Report) :
  (indicates_failure (status r) = false -> exit_code r = 0%Z) /\
  (indicates_failure (status r) = true -> exit_code r = 1%Z).
Proof. unfold exit_code. destruct (indicates_failure (status r)); split; congruence. Qed.

Lemma run_defined (app : App) (m : string) (run_mode : string) :
  cls_mode (app_class app) = Some m -> run app run_mode = dispatch app run_mode.
Proof. intros H. unfold run. now rewrite (get_mode_defined _ _ H). Qed.

Lemma strip_explain_id (app : App) :
  is_explain (comargs (store app)) = false -> strip_explain app = app.
Proof. unfold strip_explain. intros ->. now destruct app. Qed.

Lemma started_comargs (app : App) :
  comargs (store (started app)) = comargs (store app).
Proof. apply noted_comargs. Qed.

Lemma strip_started_id (app : App) :
  is_explain (comargs (store app)) = false ->
  strip_explain (started app) = started app.
Proof. intros H. apply strip_explain_id. now rewrite started_comargs. Qed.

Lemma strip_started_comargs (app : App) :
  comargs (store (strip_explain (started app))) = comargs (store (strip_explain app)).
Proof.
  unfold strip_explain. simpl. rewrite !noted_comargs.
  destruct (is_explain (comargs (store app))); simpl; now rewrite ?noted_comargs.
Qed.

Lemma strip_started_cons (app : App) (rest : list string) :
  comargs (store app) = "explain" :: rest ->
  is_explain (comargs (store app)) = true /\
  comargs (store (strip_explain (started app))) = rest.
Proof.
  intros H. split; [now rewrite H|].
  rewrite strip_started_comargs. unfold strip_explain. simpl. now rewrite H.
Qed.

Lemma strip_started_conf (app : App) :
  conf (store (strip_explain (started app))) = conf (store app).
Proof.
  unfold strip_explain. simpl. rewrite noted_comargs.
  destruct (is_explain (comargs (store app))); simpl; apply noted_conf.
Qed.

Lemma strip_started_log (app : App) :
  log (store (strip_explain (started app))) = log (store app).
Proof.
  unfold strip_explain. simpl. rewrite noted_comargs.
  destruct (is_explain (comargs (store app))); simpl; apply noted_log.
Qed.

Lemma cognize_none (app : App) (m : string) (cmd : list string) :
  cls_mode (app_class app) = Some m ->
  (forall i, In i (table app) -> firstn (gravity i) cmd <> tokens i) ->
  cognize app cmd =
    CogNone (noted (app_class app) (NCreated (List.length (dispatches app)))
                   (store app)).
Proof.
  intros Hmode Hno. rewrite (cognize_first_match _ _ _ Hmode).
  rewrite first_match_none; [reflexivity|].
  intros i Hi. apply sorted_reverse_in in Hi. now apply Hno.
Qed.

(** The run loop on a command that resolves to nothing. *)
Lemma run_no_match (app : App) (m : string) (run_mode : string) :
  cls_mode (app_class app) = Some m ->
  (forall i, In i (table app) ->
             firstn (gravity i) (comargs (store (strip_explain app))) <> tokens i) ->
  run app run_mode = finish run_mode (failed no_match_msg None (unmatched app)).
Proof.
  intros Hmode Hno. rewrite (run_defined _ _ _ Hmode). unfold dispatch.
  rewrite (cognize_none (strip_explain (started app)) m).
  - reflexivity.
  - exact Hmode.
  - rewrite strip_started_comargs. exact Hno.
Qed.

Lemma run_matched (app : App) (m : string) (run_mode : string)
      (t : list string) (a : Method) (bw : list string)
      (x : list (string * string)) (s : Store) :
  cls_mode (app_class app) = Some m ->
  cognize (strip_explain (started app))
          (comargs (store (strip_explain (started app)))) = CogMatched t a bw x s ->
  run app run_mode =
    match prepare (app_class app) t a bw x s with
    | Threw e s1 => Raised e s1
    | Done s1 =>
        after_match (app_class app) (is_explain (comargs (store app))) run_mode
                    t a bw x s1
    end.
Proof.
  intros Hmode Hcog. rewrite (run_defined _ _ _ Hmode). unfold dispatch.
  rewrite Hcog. reflexivity.
Qed.

(** Where an exit of [run] comes from: always from lines 299-311. *)
Lemma run_exited (app : App) (run_mode : string) (code : Z) (s' : Store) :
  run app run_mode = Exited code s' ->
  exists s, finish run_mode s = Exited code s'.
Proof.
  unfold run. destruct (get_mode (app_class app)); [discriminate|].
  unfold dispatch.
  destruct (cognize _ _) as [e s1|s1|t a bw x s1]; [discriminate|eauto|].
  destruct (prepare _ _ _ _ _ _) as [s2|e s2]; [|discriminate].
  unfold after_match. destruct (is_explain _); [eauto|].
  destruct (invoke _ a bw x s2) as [s3|err s3]; [eauto|].
  destruct (exn_derives_Exception err); [eauto|discriminate].
Qed.

(** Where a return of [run] comes from: always from lines 312-313 or from
    falling off the end. *)
Lemma run_returned (app : App) (run_mode : string)
      (v : option (list (string * string))) (s' : Store) :
  run app run_mode = Returned v s' ->
  exists s, finish run_mode s = Returned v s'.
Proof.
  unfold run. destruct (get_mode (app_class app)); [discriminate|].
  unfold dispatch.
  destruct (cognize _ _) as [e s1|s1|t a bw x s1]; [discriminate|eauto|].
  destruct (prepare _ _ _ _ _ _) as [s2|e s2]; [|discriminate].
  unfold after_match. destruct (is_explain _); [eauto|].
  destruct (invoke _ a bw x s2) as [s3|err s3]; [eauto|].
  destruct (exn_derives_Exception err); [eauto|discriminate].
Qed.

(** [configure_logger] changes the cached name, the logger and the levels,
    and nothing else, also when it raises. *)
Lemma configure_logger_frame (s : Store) :
  match configure_logger s with
  | Done s' | Threw _ s' => same_data s s'
  end.
Proof.
  unfold configure_logger, self_name, same_data.
  destruct (name_ s); simpl;
    (destruct (logging_getLogger _ _) as [e|[lg ls]]; simpl; [auto 6|]);
    (destruct (condex_contains _ _); simpl; [|auto 6]);
    (destruct (condex_item _ _) as [e|grade]; simpl; [auto 6|]);
    (destruct (level_of_grade grade) as [e|level]; simpl; [auto 6|]);
    (destruct (logger_setLevel _ _ _) as [e|ls']; simpl; auto 6).
Qed.

Lemma prepare_done (cls : PyClass) (t : list string) (a : Method)
      (bw : list string) (x : list (string * string)) (s s' : Store) :
  prepare cls t a bw x s = Done s' ->
  comargs s' = comargs s /\ conf s' = conf s /\ report s' = report s /\
  log s' = log s.
Proof.
  unfold prepare. intros H.
  pose proof (configure_logger_frame
                (noted cls (NMatching (Some (t, m_repr a, bw, x))) s)) as F.
  rewrite H in F. destruct F as (F1 & F2 & F3 & F4 & _).
  rewrite F1, F2, F3, F4. through. auto.
Qed.

Lemma run_matched_plain (app : App) (m : string) (run_mode : string)
      (t : list string) (a : Method) (bw : list string)
      (x : list (string * string)) (s : Store) :
  cls_mode (app_class app) = Some m ->
  is_explain (comargs (store app)) = false ->
  cognize (started app) (comargs (store app)) = CogMatched t a bw x s ->
  run app run_mode =
    match prepare (app_class app) t a bw x s with
    | Threw e s1 => Raised e s1
    | Done s1 => after_match (app_class app) false run_mode t a bw x s1
    end.
Proof.
  intros Hmode Hex Hcog. rewrite (run_matched app m run_mode t a bw x s Hmode).
  - now rewrite Hex.
  - now rewrite (strip_started_id _ Hex), started_comargs.
Qed.

(** *** The outcomes of the run loop *)

(** C3, as the code has it. When the first token is [explain], the rest
    of the command resolves, the mutation parser returns and
    [configure_logger] returns, the run loop goes to [do_explain] and not
    to the action: the report is a Success whose payload holds the idiom's
    tokens, the action's [str] and documentation, the barewords that [sed]
    computed and the tree as [sed] left it; nothing is logged. An error of
    [sed] or of [configure_logger] leaves the run loop instead. *)
Theorem explain_is_dry_run
        (app : App) (m : string) (run_mode : string) (rest : list string) :
  cls_mode (app_class app) = Some m ->
  comargs (store app) = "explain" :: rest ->
  (forall t a bw x s2 s3,
      cognize (strip_explain (started app)) rest = CogMatched t a bw x s2 ->
      configure_logger (noted (app_class app) (NMatching (Some (t, m_repr a, bw, x))) s2) = Done s3 ->
      run app run_mode = finish run_mode (do_explain t a bw s3) /\
      report (result_store (run app run_mode)) =
        Some {| status := Success;
                body := explain_doc t a;
                data := Some (DexExplain
                                {| inv_idiom := Text.join " " t;
                                   inv_method := m_repr a;
                                   inv_args := bw;
                                   inv_doc := m_doc a |}
                                (condex_toJDN (conf s2))) |} /\
      log (result_store (run app run_mode)) = log s2 /\
      run app "cli" = Exited 0 (rendered (do_explain t a bw s3))) /\
  (forall e s,
      cognize (strip_explain (started app)) rest = CogRaised e s ->
      run app run_mode = Raised e s) /\
  (forall t a bw x s2 e s3,
      cognize (strip_explain (started app)) rest = CogMatched t a bw x s2 ->
      configure_logger (noted (app_class app) (NMatching (Some (t, m_repr a, bw, x))) s2) = Threw e s3 ->
      run app run_mode = Raised e s3).
Proof.
  intros Hmode Hcmd.
  destruct (strip_started_cons app rest Hcmd) as [Hex Hstrip].
  split; [|split].
  - intros t a bw x s2 s3 Hcog Hprep.
    fold (prepare (app_class app) t a bw x s2) in Hprep.
    assert (Hrun : forall rm, run app rm = finish rm (do_explain t a bw s3)).
    { intros rm. rewrite (run_matched app m rm t a bw x s2 Hmode).
      - rewrite Hprep, Hex. reflexivity.
      - now rewrite Hstrip. }
    destruct (prepare_done _ _ _ _ _ _ _ Hprep) as (_ & Hconf & _ & Hlog).
    repeat split.
    + apply Hrun.
    + rewrite Hrun, finish_report. unfold the_report, do_explain, succeeded,
        explain_dex. simpl. now rewrite Hconf.
    + rewrite Hrun, finish_log. unfold reported. simpl. exact Hlog.
    + rewrite Hrun, finish_cli. reflexivity.
  - intros e s Hcog. rewrite (run_defined _ _ _ Hmode). unfold dispatch.
    now rewrite Hstrip, Hcog.
  - intros t a bw x s2 e s3 Hcog Hprep.
    fold (prepare (app_class app) t a bw x s2) in Hprep.
    rewrite (run_matched app m run_mode t a bw x s2 Hmode).
    + now rewrite Hprep.
    + now rewrite Hstrip.
Qed.

(** C4, as the code has it. When the invoked action raises an error, the
    run loop leaves an Exception report whose body is the error's message
    and sends that message to the logger at critical severity; a record is
    made when the logger is enabled for that severity. *)
Theorem action_error_becomes_exception
        (app : App) (m : string) (run_mode : string)
        (t : list string) (a : Method) (bw : list string)
        (x : list (string * string)) (s2 s3 s4 : Store) (err : exn) :
  cls_mode (app_class app) = Some m ->
  is_explain (comargs (store app)) = false ->
  cognize (started app) (comargs (store app)) = CogMatched t a bw x s2 ->
  configure_logger (noted (app_class app) (NMatching (Some (t, m_repr a, bw, x))) s2) = Done s3 ->
  m_call a bw x (noted (app_class app) NExecutableStart s3) = RaisedIn err s4 ->
  exn_derives_Exception err = true ->
  report (result_store (run app run_mode)) =
    Some (mk_report Exception (exn_str err) None) /\
  log (result_store (run app run_mode)) =
    (if logger_isEnabledFor (logging s4) (logger s4) Logging.CRITICAL
     then log s4 ++ [(Logging.CRITICAL, exn_str err)] else log s4) /\
  run app "cli" = Exited 1 (rendered (crashed (exn_str err) None s4)).
Proof.
  intros Hmode Hex Hcog Hprep Hcall Hder.
  fold (prepare (app_class app) t a bw x s2) in Hprep.
  assert (Hrun : forall rm,
             run app rm = finish rm (crashed (exn_str err) None s4)).
  { intros rm. rewrite (run_matched_plain app m rm t a bw x s2 Hmode Hex Hcog).
    rewrite Hprep. unfold after_match, invoke. now rewrite Hcall, Hder. }
  assert (Hrep : the_report (crashed (exn_str err) None s4) =
                 mk_report Exception (exn_str err) None)
    by (unfold the_report; now rewrite crashed_report).
  repeat split.
  - rewrite Hrun, finish_report. now rewrite Hrep.
  - rewrite Hrun, finish_log. unfold reported. rewrite crashed_report.
    apply crashed_log.
  - rewrite Hrun, finish_cli. now rewrite Hrep.
Qed.

(** C5, as the code has it. When no registered idiom matches the command,
    [cognize] answers [None] and the run loop leaves a Failure report that
    points to the [help] command; in the [cli] run mode it is rendered and
    the exit code is 1, in the [gui] run mode the run loop returns the
    status dictionary and does not exit. *)
Theorem no_match_fails (app : App) (m : string) (run_mode : string) :
  cls_mode (app_class app) = Some m ->
  (forall i, In i (table app) ->
             firstn (gravity i) (comargs (store (strip_explain app))) <> tokens i) ->
  (exists s, cognize (strip_explain (started app))
                     (comargs (store (strip_explain (started app)))) = CogNone s) /\
  report (result_store (run app run_mode)) =
    Some (mk_report Failure
            ("Bad request due to no "
               ++ String (ascii_of_nat 34) "matched"
               ++ String (ascii_of_nat 34) "."
               ++ String (ascii_of_nat 10) "try using "
               ++ String (ascii_of_nat 34) "help"
               ++ String (ascii_of_nat 34) " command?")
            None) /\
  log (result_store (run app run_mode)) = log (store app) /\
  run app "cli" = Exited 1 (rendered (failed no_match_msg None (unmatched app))) /\
  run app "gui" =
    Returned (Some [("status", "success")])
             (failed no_match_msg None (unmatched app)).
Proof.
  intros Hmode Hno.
  pose proof (run_no_match app m) as Hrun.
  repeat split.
  - eexists. apply (cognize_none (strip_explain (started app)) m); [exact Hmode|].
    rewrite strip_started_comargs. exact Hno.
  - rewrite (Hrun run_mode Hmode Hno), finish_report. reflexivity.
  - rewrite (Hrun run_mode Hmode Hno), finish_log.
    change (log (reported (failed no_match_msg None (unmatched app))))
      with (log (unmatched app)).
    unfold unmatched. rewrite !noted_log. apply strip_started_log.
  - rewrite (Hrun "cli" Hmode Hno), finish_cli. reflexivity.
  - rewrite (Hrun "gui" Hmode Hno), finish_gui. reflexivity.
Qed.

(** C6. When the invoked action returns and no report is set, the run loop
    makes up an Exception report saying that the action returned none. *)
Theorem missing_report_is_exception
        (app : App) (m : string) (run_mode : string)
        (t : list string) (a : Method) (bw : list string)
        (x : list (string * string)) (s2 s3 s4 : Store) :
  cls_mode (app_class app) = Some m ->
  is_explain (comargs (store app)) = false ->
  cognize (started app) (comargs (store app)) = CogMatched t a bw x s2 ->
  configure_logger (noted (app_class app) (NMatching (Some (t, m_repr a, bw, x))) s2) = Done s3 ->
  m_call a bw x (noted (app_class app) NExecutableStart s3) = Finished s4 ->
  report s4 = None ->
  report (result_store (run app run_mode)) =
    Some (mk_report Exception "no report returned by action!" None) /\
  run app "cli" = Exited 1 (rendered (noted (app_class app) NExecutableComplete s4)).
Proof.
  intros Hmode Hex Hcog Hprep Hcall Hnone.
  fold (prepare (app_class app) t a bw x s2) in Hprep.
  assert (Hrun : forall rm,
             run app rm = finish rm (noted (app_class app) NExecutableComplete s4)).
  { intros rm. rewrite (run_matched_plain app m rm t a bw x s2 Hmode Hex Hcog).
    rewrite Hprep. unfold after_match, invoke. now rewrite Hcall. }
  assert (Hrep : the_report (noted (app_class app) NExecutableComplete s4) =
                 mk_report Exception no_report_msg None)
    by (unfold the_report; now rewrite noted_report, Hnone).
  split.
  - rewrite Hrun, finish_report. now rewrite Hrep.
  - rewrite Hrun, finish_cli. now rewrite Hrep.
Qed.

(** C7, as the code has it. Whenever the run loop exits, which it does at
    the end of every invocation in the [cli] run mode, the exit code is 0
    if the report's status does not indicate failure (Success,
    Inconclusive) and 1 if it does (Failure, Exception). In any other run
    mode the run loop returns and sets no exit code. *)
Theorem exit_code_follows_outcome :
  (forall (app : App) (run_mode : string) (code : Z) (s : Store),
      run app run_mode = Exited code s ->
      run_mode = "cli" /\
      exists r,
        report s = Some r /\
        (indicates_failure (status r) = false -> code = 0%Z) /\
        (indicates_failure (status r) = true -> code = 1%Z)) /\
  (forall s : Store,
      finish "cli" s = Exited (exit_code (the_report s)) (rendered s) /\
      report (rendered s) = Some (the_report s)) /\
  (forall r : Report,
      match status r with
      | Success | Inconclusive => exit_code r = 0%Z
      | Failure | Exception => exit_code r = 1%Z
      end) /\
  (forall (app : App) (run_mode : string) v (s : Store),
      run app run_mode = Returned v s ->
      run_mode <> "cli" /\ exists r, report s = Some r) /\
  (forall (run_mode : string) (s : Store),
      run_mode <> "cli" ->
      exists v, finish run_mode s = Returned v (reported s)).
Proof.
  split; [|split; [|split; [|split]]].
  - intros app rm code s Hrun.
    destruct (run_exited _ _ _ _ Hrun) as [s0 Hfin].
    destruct (finish_exited _ _ _ _ Hfin) as (-> & -> & ->).
    split; [reflexivity|].
    exists (the_report s0). split; [apply rendered_report|].
    apply exit_code_spec.
  - intros s. split; [apply finish_cli|apply rendered_report].
  - intros r. unfold exit_code. destruct (status r); reflexivity.
  - intros app rm v s Hrun.
    destruct (run_returned _ _ _ _ Hrun) as [s0 Hfin].
    destruct (finish_returned _ _ _ _ Hfin) as (Hcli & -> & _).
    split; [exact Hcli|]. exists (the_report s0). apply reported_report.
  - intros rm s Hcli. rewrite finish_eq.
    destruct (String.eqb_spec rm "cli") as [->|_]; [congruence|].
    destruct (String.eqb rm "gui"); eauto.
Qed.


(** C10. [App.__init__] reads [self.mode] at line 46, and the class [App]
    has no such attribute: constructing [App] raises [AttributeError] with
    only the attributes of lines 41-45 assigned, whatever the arguments.
    The same holds for every class without [mode], whose [idioms],
    [cognize] and [run] raise it too; so a construction that gets to the
    logger set-up or to the run loop is one of a class that defines
    [mode]. *)
Theorem base_app_cannot_be_constructed :
  (forall name run_mode cmd defaults ls,
      init App_class name run_mode cmd defaults ls =
        InitRaised (AttributeError "App" "mode")
                   {| p_run_mode := run_mode; p_comargs := cmd; p_actions := [];
                      p_dispatches := []; p_name := name |}) /\
  (forall cls name run_mode cmd defaults ls,
      cls_mode cls = None ->
      init cls name run_mode cmd defaults ls =
        InitRaised (AttributeError (cls_name cls) "mode")
                   {| p_run_mode := run_mode; p_comargs := cmd; p_actions := [];
                      p_dispatches := []; p_name := name |}) /\
  (forall app cmd run_mode,
      cls_mode (app_class app) = None ->
      let e := AttributeError (cls_name (app_class app)) "mode" in
      idioms app = inl e /\
      cognize app cmd = CogRaised e (store app) /\
      run app run_mode = Raised e (store app)) /\
  (forall cls name run_mode cmd defaults ls app r,
      init cls name run_mode cmd defaults ls = InitRan app r ->
      cls_mode cls <> None /\ app_class app = cls /\
      dispatches app = scan_dir (cls_dir cls) /\ r = run app run_mode) /\
  (forall cls name run_mode cmd defaults ls e s,
      init cls name run_mode cmd defaults ls = InitThrew e s ->
      cls_mode cls <> None).
Proof.
  split; [reflexivity|]. split; [|split; [|split]].
  - intros cls name rm cmd defaults ls Hmode. unfold init.
    now rewrite (get_mode_missing _ Hmode).
  - intros app cmd rm Hmode e.
    assert (Hid : idioms app = inl e)
      by (unfold idioms; now rewrite (get_mode_missing _ Hmode)).
    repeat split.
    + exact Hid.
    + unfold cognize. now rewrite Hid.
    + unfold run. now rewrite (get_mode_missing _ Hmode).
  - intros cls name rm cmd defaults ls app r Hinit.
    destruct (init_ran _ _ _ _ _ _ _ _ Hinit) as (m & s & Hmode & -> & ->).
    repeat split. congruence.
  - intros cls name rm cmd defaults ls e s. unfold init.
    destruct (cls_mode cls) eqn:Hm; [congruence|].
    now rewrite (get_mode_missing _ Hm).
Qed.

End Facts.

(** *** The theorems on the sample subclasses *)

Import Demo.
#[local] Existing Instance demo_condo.
#[local] Existing Instance demo_runtime.

Lemma cognize_longest_match_witness :
  cls_mode (app_class (app_of Maker ["make"; "catalog"; "x"])) = Some "run" /\
  In (2, ["make"; "catalog"], do_make_catalog)
     (map idiom_of (dispatches (app_of Maker ["make"; "catalog"; "x"]))) /\
  firstn 2 ["make"; "catalog"; "x"] = ["make"; "catalog"] /\
  exists w ids,
    first_match ids ["make"; "catalog"; "x"] = Some w /\
    firstn (gravity w) ["make"; "catalog"; "x"] = tokens w /\
    (forall j, In j (map idiom_of (dispatches (app_of Maker ["make"; "catalog"; "x"]))) ->
               firstn (gravity j) ["make"; "catalog"; "x"] = tokens j ->
               gravity j <= gravity w) /\
    cognize (app_of Maker ["make"; "catalog"; "x"]) ["make"; "catalog"; "x"] =
      hand_over (app_of Maker ["make"; "catalog"; "x"]) ["make"; "catalog"; "x"] w.
Proof.
  split; [reflexivity|]. split; [simpl; auto 10|]. split; [reflexivity|].
  destruct (proj1 cognize_longest_match
                  (app_of Maker ["make"; "catalog"; "x"]) "run"
                  ["make"; "catalog"; "x"]
                  (2, ["make"; "catalog"], do_make_catalog) eq_refl)
    as (w & ids & H1 & H2 & _ & H4 & H5 & H6).
  - simpl; auto 10.
  - reflexivity.
  - exists w, ids. auto.
Defined.

Lemma idioms_order_witness :
  cls_mode (app_class (app_of Maker [])) = Some "run" /\
  exists ids,
    Permutation (map idiom_of (dispatches (app_of Maker []))) ids /\
    StronglySorted listed_before ids.
Proof.
  split; [reflexivity|].
  destruct (idioms_order (app_of Maker []) "run" eq_refl) as (ids & H1 & H2 & H3 & _).
  exists ids. auto.
Defined.

Lemma dispatch_table_built_witness :
  init Maker None "cli" ["make"] None PyLog.fresh =
    InitRan (app_of Maker ["make"]) (run (app_of Maker ["make"]) "cli") /\
  exists ids,
    Permutation (map idiom_of (dispatches (app_of Maker ["make"]))) ids /\
    (forall t a, In (t, a) (dispatches (app_of Maker ["make"])) ->
                 In (List.length t, t, a) ids) /\
    first_match ids [] = None.
Proof.
  split; [reflexivity|].
  destruct (dispatch_table_built Maker None "cli" ["make"] None PyLog.fresh
                                 (app_of Maker ["make"])
                                 (run (app_of Maker ["make"]) "cli") eq_refl)
    as (_ & _ & _ & (ids & _ & H2 & H3 & _ & H5) & _).
  exists ids. auto.
Defined.

(** The bare prefix gives an idiom of one token, the empty string, and the
    empty command line matches nothing. *)
Lemma bare_prefix_is_one_token :
  tokens_of_attr "do_" = [EmptyString] /\
  idioms (app_of Bare []) = inr ([(1, [EmptyString], do_)], store (app_of Bare [])) /\
  cognize (app_of Bare []) [] = CogNone (store (app_of Bare [])) /\
  ~ (exists i ids s, idioms (app_of Bare []) = inr (ids, s) /\ In i ids /\
                     gravity i = 0).
Proof.
  repeat split.
  intros (i & ids & s & Hids & Hin & Hg).
  injection Hids as <- _. destruct Hin as [<-|[]]. discriminate.
Qed.

Lemma explain_is_dry_run_witness :
  cls_mode (app_class (app_of Maker ["explain"; "boom"; "x:"; "1"; "y"])) = Some "run" /\
  comargs (store (app_of Maker ["explain"; "boom"; "x:"; "1"; "y"])) =
    "explain" :: ["boom"; "x:"; "1"; "y"] /\
  exists s2 s3,
    cognize (strip_explain (started (app_of Maker ["explain"; "boom"; "x:"; "1"; "y"])))
            ["boom"; "x:"; "1"; "y"] =
      CogMatched ["boom"] do_boom ["y"] xtraopts s2 /\
    prepare Maker ["boom"] do_boom ["y"] xtraopts s2 = Done s3 /\
    report (result_store (run (app_of Maker ["explain"; "boom"; "x:"; "1"; "y"]) "cli")) =
      Some {| status := Success;
              body := explain_doc ["boom"] do_boom;
              data := Some (DexExplain
                              {| inv_idiom := "boom";
                                 inv_method := "<bound method Maker.do_boom>";
                                 inv_args := ["y"];
                                 inv_doc := None |}
                              (condex_toJDN (conf s2))) |} /\
    log (result_store (run (app_of Maker ["explain"; "boom"; "x:"; "1"; "y"]) "cli")) = [].
Proof.
  split; [reflexivity|]. split; [reflexivity|].
  eexists. eexists. split; [reflexivity|]. split; [reflexivity|].
  destruct (proj1 (explain_is_dry_run
                     (app_of Maker ["explain"; "boom"; "x:"; "1"; "y"]) "run" "cli"
                     ["boom"; "x:"; "1"; "y"] eq_refl eq_refl)
                  _ _ _ _ _ _ eq_refl eq_refl)
    as (_ & H2 & H3 & _).
  split; [exact H2|exact H3].
Defined.

(** The rest of the command resolves to an idiom, and yet no outcome is
    produced: [sed] raises on the mutation tokens, or [configure_logger]
    raises on the tree that [sed] left. *)
Lemma explain_needs_sed_and_logger :
  first_match (sorted_reverse idiom_key
                 (map idiom_of (dispatches (app_of Maker ["explain"; "make"; "x:"]))))
              ["make"; "x:"] = Some (1, ["make"], do_make) /\
  run (app_of Maker ["explain"; "make"; "x:"]) "cli" =
    Raised (CondoSpec.MutationSyntaxError "x:") (store (app_of Maker ["make"; "x:"])) /\
  report (result_store (run (app_of Maker ["explain"; "make"; "x:"]) "cli")) = None /\
  first_match (sorted_reverse idiom_key
                 (map idiom_of (dispatches (app_of Maker ["explain"; "make"; "log.key!"]))))
              ["make"; "log.key!"] = Some (1, ["make"], do_make) /\
  (exists s, run (app_of Maker ["explain"; "make"; "log.key!"]) "cli" =
               Raised (mk_exn "TypeError" true "A logger name must be a string") s /\
             report s = None /\ stdout s = []).
Proof.
  repeat split. eexists. repeat split.
Qed.

Lemma action_error_becomes_exception_witness :
  cls_mode (app_class (app_of Maker ["boom"])) = Some "run" /\
  is_explain (comargs (store (app_of Maker ["boom"]))) = false /\
  exists s3,
    cognize (started (app_of Maker ["boom"])) ["boom"] =
      CogMatched ["boom"] do_boom [] xtraopts (store (app_of Maker ["boom"])) /\
    prepare Maker ["boom"] do_boom [] xtraopts (store (app_of Maker ["boom"])) = Done s3 /\
    m_call do_boom [] xtraopts (noted Maker NExecutableStart s3) =
      RaisedIn (mk_exn "ValueError" true "boom") s3 /\
    report (result_store (run (app_of Maker ["boom"]) "cli")) =
      Some (mk_report Exception "boom" None) /\
    log (result_store (run (app_of Maker ["boom"]) "cli")) =
      [(Logging.CRITICAL, "boom")].
Proof.
  split; [reflexivity|]. split; [reflexivity|].
  eexists. split; [reflexivity|]. split; [reflexivity|]. split; [reflexivity|].
  destruct (action_error_becomes_exception
              (app_of Maker ["boom"]) "run" "cli" ["boom"] do_boom [] xtraopts
              _ _ _ (mk_exn "ValueError" true "boom")
              eq_refl eq_refl eq_refl eq_refl eq_refl eq_refl) as (H1 & H2 & _).
  split; [exact H1|exact H2].
Defined.

(** With the log level set above CRITICAL the action's error still becomes
    an Exception report, but no record is made. *)
Lemma critical_record_needs_level :
  exists s,
    run (app_of Maker ["boom"; "log.level:"; "60"]) "cli" = Exited 1 s /\
    report s = Some (mk_report Exception "boom" None) /\
    log s = [].
Proof. eexists. repeat split. Qed.

Lemma Maker_no_bogus (rest : list string) (i : Idiom) :
  In i (map idiom_of (dispatches (app_of Maker ("bogus" :: rest)))) ->
  firstn (gravity i) ("bogus" :: rest) <> tokens i.
Proof.
  intros Hi. simpl in Hi.
  repeat (destruct Hi as [<-|Hi]; [discriminate|]). destruct Hi.
Defined.

Lemma no_match_fails_witness :
  cls_mode (app_class (app_of Maker ["bogus"; "verb"])) = Some "run" /\
  (forall i, In i (map idiom_of (dispatches (app_of Maker ["bogus"; "verb"]))) ->
             firstn (gravity i) ["bogus"; "verb"] <> tokens i) /\
  report (result_store (run (app_of Maker ["bogus"; "verb"]) "cli")) =
    Some (mk_report Failure no_match_msg None) /\
  exists s, run (app_of Maker ["bogus"; "verb"]) "cli" = Exited 1 s.
Proof.
  split; [reflexivity|]. split; [exact (Maker_no_bogus ["verb"])|].
  destruct (no_match_fails (app_of Maker ["bogus"; "verb"]) "run" "cli" eq_refl
                           (Maker_no_bogus ["verb"]))
    as (_ & H2 & _ & H4 & _).
  split; [exact H2|]. eexists. exact H4.
Defined.

(** In the [gui] run mode the unmatched command leaves the Failure report,
    and the run loop returns the status dictionary: no exit, no exit
    code. *)
Lemma unmatched_gui_has_no_exit :
  (exists s, run (app_of Maker ["bogus"; "verb"]) "gui" =
               Returned (Some [("status", "success")]) s /\
             report s = Some (mk_report Failure no_match_msg None)) /\
  (forall code s, run (app_of Maker ["bogus"; "verb"]) "gui" <> Exited code s).
Proof.
  split; [eexists; split; reflexivity|]. intros code s. discriminate.
Qed.

Lemma missing_report_is_exception_witness :
  cls_mode (app_class (app_of Maker ["silent"])) = Some "run" /\
  is_explain (comargs (store (app_of Maker ["silent"]))) = false /\
  exists s3,
    cognize (started (app_of Maker ["silent"])) ["silent"] =
      CogMatched ["silent"] do_silent [] xtraopts (store (app_of Maker ["silent"])) /\
    prepare Maker ["silent"] do_silent [] xtraopts (store (app_of Maker ["silent"])) =
      Done s3 /\
    m_call do_silent [] xtraopts (noted Maker NExecutableStart s3) = Finished s3 /\
    report s3 = None /\
    report (result_store (run (app_of Maker ["silent"]) "cli")) =
      Some (mk_report Exception "no report returned by action!" None).
Proof.
  split; [reflexivity|]. split; [reflexivity|].
  eexists. split; [reflexivity|]. split; [reflexivity|]. split; [reflexivity|].
  split; [reflexivity|].
  exact (proj1 (missing_report_is_exception
                  (app_of Maker ["silent"]) "run" "cli" ["silent"] do_silent []
                  xtraopts _ _ _ eq_refl eq_refl eq_refl eq_refl eq_refl eq_refl)).
Defined.

Lemma exit_code_follows_outcome_witness :
  run (app_of Maker ["make"]) "cli" =
    Exited 0 (result_store (run (app_of Maker ["make"]) "cli")) /\
  "cli" = "cli" /\
  exists r,
    report (result_store (run (app_of Maker ["make"]) "cli")) = Some r /\
    (indicates_failure (status r) = false -> 0%Z = 0%Z) /\
    (indicates_failure (status r) = true -> 0%Z = 1%Z).
Proof.
  split; [reflexivity|].
  exact (proj1 exit_code_follows_outcome (app_of Maker ["make"]) "cli" 0%Z
               (result_store (run (app_of Maker ["make"]) "cli")) eq_refl).
Defined.

(** An invocation in the [gui] run mode completes with an Exception
    report, whose status indicates failure, and sets no exit code: the run
    loop returns. *)
Lemma gui_failure_has_no_exit_code :
  (exists s, run (app_of Maker ["boom"]) "gui" =
               Returned (Some [("status", "success")]) s /\
             report s = Some (mk_report Exception "boom" None) /\
             indicates_failure Exception = true) /\
  (forall code s, run (app_of Maker ["boom"]) "gui" <> Exited code s).
Proof.
  split; [eexists; repeat split|]. intros code s. discriminate.
Qed.



Lemma base_app_cannot_be_constructed_witness :
  cls_mode Modeless = None /\
  init Modeless None "cli" ["help"] None PyLog.fresh =
    InitRaised (AttributeError "Modeless" "mode")
               {| p_run_mode := "cli"; p_comargs := ["help"]; p_actions := [];
                  p_dispatches := []; p_name := None |} /\
  init Maker None "cli" ["help"] None PyLog.fresh =
    InitRan (app_of Maker ["help"]) (run (app_of Maker ["help"]) "cli") /\
  cls_mode Maker <> None /\
  dispatches (app_of Maker ["help"]) = scan_dir (cls_dir Maker).
Proof.
  destruct (@base_app_cannot_be_constructed demo_condo demo_runtime)
    as (_ & H2 & _ & H4 & _).
  split; [reflexivity|].
  split; [exact (H2 Modeless None "cli" ["help"] None PyLog.fresh eq_refl)|].
  split; [reflexivity|].
  destruct (H4 Maker None "cli" ["help"] None PyLog.fresh
               (app_of Maker ["help"]) (run (app_of Maker ["help"]) "cli") eq_refl)
    as (Hm & _ & Hd & _).
  split; [exact Hm|exact Hd].
Defined.

(** A class that defines [mode] is not always constructed: with the
    defaults [{'log.level': '10'}] the logger set-up of line 59 raises. *)
Lemma mode_is_not_enough :
  exists s,
    init Maker None "cli" ["make"] (Some [("log.level", SStr "10")]) PyLog.fresh =
      InitThrew (mk_exn "ValueError" true "Unknown level: '10'") s.
Proof. eexists. reflexivity. Qed.

End ClixFacts.
(** ** More on the resolver, the run loop and the start-up *)

Module ClixMoreFacts.
Import Order OrderFacts PySort PySortFacts Clix ClixFacts ClixMore.

(** A descending list whose keys are pairwise distinct is the only
    descending arrangement of its elements. *)
Section Unique.
Variable A : Type.
Variable key : A -> Key.

Lemma NoDup_key_inj (l : list A) (a b : A) :
  NoDup (map key l) -> In a l -> In b l -> key a = key b -> a = b.
Proof.
  induction l as [|x l IH]; simpl; intros Hnd Ha Hb Hk; [destruct Ha|].
  inversion Hnd as [|? ? Hnotin Hnd']; subst.
  destruct Ha as [<-|Ha], Hb as [<-|Hb]; auto.
  - exfalso. apply Hnotin. rewrite Hk. now apply in_map.
  - exfalso. apply Hnotin. rewrite <- Hk. now apply in_map.
Qed.

Lemma head_desc (x : A) (l : list A) (y : A) :
  StronglySorted (desc key) (x :: l) -> In y (x :: l) -> desc key x y.
Proof.
  intros Hs Hy. inversion Hs as [|? ? _ Hall]; subst.
  destruct Hy as [<-|Hy]; [apply key_geb_refl|].
  rewrite Forall_forall in Hall. now apply Hall.
Qed.

Lemma sorted_desc_unique (l1 l2 : list A) :
  StronglySorted (desc key) l1 -> StronglySorted (desc key) l2 ->
  Permutation l1 l2 -> NoDup (map key l1) -> l1 = l2.
Proof.
  revert l2. induction l1 as [|x l1 IH]; intros l2 Hs1 Hs2 Hp Hnd.
  - apply Permutation_nil in Hp. now subst.
  - destruct l2 as [|y l2].
    + apply Permutation_sym, Permutation_nil in Hp. discriminate.
    + assert (Hy : In y (x :: l1))
        by (eapply Permutation_in; [apply Permutation_sym, Hp|now left]).
      assert (Hx : In x (y :: l2))
        by (eapply Permutation_in; [apply Hp|now left]).
      assert (E : y = x).
      { apply (NoDup_key_inj (x :: l1)); auto; [now left|].
        apply key_geb_antisym;
          [exact (head_desc _ _ _ Hs2 Hx)|exact (head_desc _ _ _ Hs1 Hy)]. }
      subst y. f_equal.
      apply IH.
      * now inversion Hs1.
      * now inversion Hs2.
      * now apply Permutation_cons_inv in Hp.
      * now inversion Hnd.
Qed.

End Unique.

Section MoreFacts.
Context {C : Condo} {R : Runtime}.

Local Abbreviation table app := (map idiom_of (dispatches app)).

Lemma table_keys_NoDup (l : list Dispatch) :
  NoDup (map fst l) -> NoDup (map idiom_key (map idiom_of l)).
Proof.
  rewrite map_map. induction l as [|d l IH]; simpl; intros Hnd; constructor;
    inversion Hnd as [|? ? Hnotin Hnd']; subst; auto.
  intros Hin. apply Hnotin. apply in_map_iff in Hin.
  destruct Hin as (d' & Hk & Hd'). apply in_map_iff. exists d'.
  split; [|exact Hd']. unfold idiom_key, idiom_of, gravity, tokens in Hk.
  simpl in Hk. now injection Hk.
Qed.

Lemma table_entry (app : App) (i : Idiom) :
  In i (table app) -> In (tokens i, action i) (dispatches app).
Proof.
  intros H. apply in_map_iff in H. destruct H as ([t a] & <- & Hin). exact Hin.
Qed.

Lemma first_match_in_table (app : App) (cmd : list string) (w : Idiom) :
  first_match (sorted_reverse idiom_key (table app)) cmd = Some w ->
  In w (table app) /\ firstn (gravity w) cmd = tokens w.
Proof.
  unfold first_match. intros H. apply find_some in H. destruct H as [Hin Hm].
  split; [now apply sorted_reverse_in in Hin|now apply matches_true].
Qed.

Lemma idioms_list (app : App) (ids : list Idiom) (s : Store) :
  idioms app = inr (ids, s) -> ids = sorted_reverse idiom_key (table app).
Proof.
  unfold idioms. destruct (get_mode (app_class app)); [discriminate|].
  now intros [= <- _].
Qed.

(** X1. The tuple that [cognize] returns splits the command: its tokens are
    a registered idiom and a prefix of the command, the mutation parser was
    given exactly the rest, and the barewords are what the parser returned;
    the keyword options are always the fixed [xtraopt] entry. [self] is as
    before but for the tree that the parser left and the debug prints. *)
Theorem cognize_splits_command
        (app : App) (m : string) (cmd : list string) (t : list string)
        (a : Method) (bw : list string) (x : list (string * string)) (s : Store) :
  cls_mode (app_class app) = Some m ->
  cognize app cmd = CogMatched t a bw x s ->
  In (t, a) (dispatches app) /\
  x = [("xtraopt", "Pass for now")] /\
  exists rest c,
    cmd = t ++ rest /\
    List.length t <= List.length cmd /\
    condex_sed (conf (store app)) rest = SedDone c bw /\
    s = noted (app_class app) (NBarewords bw)
          (noted (app_class app) (NConfargs rest)
             (set_conf c
                (noted (app_class app) (NMatched t)
                   (noted (app_class app) (NCreated (List.length (dispatches app)))
                          (store app))))).
Proof.
  intros Hmode. rewrite (cognize_first_match _ _ _ Hmode).
  destruct (first_match _ cmd) as [w|] eqn:Hw; [|discriminate].
  destruct (first_match_in_table _ _ _ Hw) as [Hin Hpre].
  unfold hand_over, at_match.
  destruct (condex_sed (conf (store app)) (skipn (gravity w) cmd))
    as [c bw'|e c] eqn:Hsed; [|discriminate].
  intros [= <- <- <- <- <-].
  split; [now apply table_entry|]. split; [reflexivity|].
  exists (skipn (gravity w) cmd), c.
  split; [rewrite <- Hpre; symmetry; apply firstn_skipn|].
  split; [rewrite <- Hpre; rewrite length_firstn; lia|].
  split; [exact Hsed|]. now rewrite Hpre.
Qed.

(** X2. Whatever [cognize] answers, it leaves the command, the report and
    the log as they were and only adds to the standard output, nothing
    unless [mode] is ['debug']; when it answers [None] the configuration
    is untouched too. *)
Theorem cognize_touches_only_conf (app : App) (cmd : list string) :
  match cognize app cmd with
  | CogNone s =>
      conf s = conf (store app) /\
      comargs s = comargs (store app) /\ report s = report (store app) /\
      log s = log (store app) /\
      (exists notes, stdout s = stdout (store app) ++ notes) /\
      (mode_is_debug (app_class app) = false -> stdout s = stdout (store app))
  | CogRaised _ s | CogMatched _ _ _ _ s =>
      comargs s = comargs (store app) /\ report s = report (store app) /\
      log s = log (store app) /\
      (exists notes, stdout s = stdout (store app) ++ notes) /\
      (mode_is_debug (app_class app) = false -> stdout s = stdout (store app))
  end.
Proof.
  assert (Hadd : forall n s,
             (exists notes, stdout s = stdout (store app) ++ notes) ->
             exists notes,
               stdout (noted (app_class app) n s) = stdout (store app) ++ notes).
  { intros n s [notes H]. rewrite noted_stdout.
    destruct (mode_is_debug (app_class app)); [|eauto].
    rewrite H, <- app_assoc. eauto. }
  assert (H0 : exists notes, stdout (store app) = stdout (store app) ++ notes)
    by (exists []; now rewrite app_nil_r).
  unfold cognize, idioms.
  destruct (get_mode (app_class app)) as [e|m].
  { repeat split; auto. }
  destruct (first_match _ cmd) as [w|].
  - destruct (condex_sed _ _) as [c bw|e c].
    + split; [|split; [|split; [|split]]].
      * rewrite !noted_comargs. cbn [comargs set_conf]. now rewrite !noted_comargs.
      * rewrite !noted_report. cbn [report set_conf]. now rewrite !noted_report.
      * rewrite !noted_log. cbn [log set_conf]. now rewrite !noted_log.
      * do 2 apply Hadd. cbn [stdout set_conf]. do 2 apply Hadd. exact H0.
      * intros Hq. now rewrite !(noted_quiet _ _ _ Hq).
    + split; [|split; [|split; [|split]]].
      * cbn [comargs set_conf]. now rewrite !noted_comargs.
      * cbn [report set_conf]. now rewrite !noted_report.
      * cbn [log set_conf]. now rewrite !noted_log.
      * cbn [stdout set_conf]. do 2 apply Hadd. exact H0.
      * intros Hq. now rewrite !(noted_quiet _ _ _ Hq).
  - split; [|split; [|split; [|split; [|split]]]].
    + apply noted_conf.
    + apply noted_comargs.
    + apply noted_report.
    + apply noted_log.
    + apply Hadd. exact H0.
    + intros Hq. now rewrite (noted_quiet _ _ _ Hq).
Qed.

(** X3. When no token sequence is registered twice, the order in which the
    actions were registered does not matter: two instances of one class
    whose dispatch lists are permutations of each other have the same list
    of idioms, and from the same state [idioms] and [cognize] answer
    alike. *)
Theorem idioms_ignore_registration_order (app1 app2 : App) :
  app_class app1 = app_class app2 ->
  Permutation (dispatches app1) (dispatches app2) ->
  NoDup (map fst (dispatches app1)) ->
  (forall ids s1, idioms app1 = inr (ids, s1) ->
                  exists s2, idioms app2 = inr (ids, s2)) /\
  (store app1 = store app2 ->
   idioms app1 = idioms app2 /\
   forall cmd, cognize app1 cmd = cognize app2 cmd).
Proof.
  intros Hcls Hperm Hnd.
  assert (Hsort : sorted_reverse idiom_key (table app1) =
                  sorted_reverse idiom_key (table app2)).
  { apply (sorted_desc_unique Idiom idiom_key).
    - apply sorted_reverse_sorted.
    - apply sorted_reverse_sorted.
    - eapply perm_trans; [apply Permutation_sym, sorted_reverse_perm|].
      eapply perm_trans; [|apply sorted_reverse_perm].
      now apply Permutation_map.
    - eapply Permutation_NoDup;
        [apply Permutation_map, sorted_reverse_perm|].
      now apply table_keys_NoDup. }
  split.
  - intros ids s1. unfold idioms. rewrite <- Hcls, <- Hsort.
    destruct (get_mode (app_class app1)); [discriminate|].
    intros [= <- _]. eauto.
  - intros Hst.
    assert (Hid : idioms app1 = idioms app2)
      by (unfold idioms; now rewrite Hcls, Hsort, Hst).
    split; [exact Hid|].
    intros cmd. unfold cognize. rewrite Hid, ?Hcls, ?Hst. reflexivity.
Qed.

(** X4. When no token sequence is registered twice, resolution is
    unambiguous: every registered idiom that matches the command, other
    than the selected one, has a strictly smaller gravity. *)
Theorem resolution_is_unambiguous
        (app : App) (ids : list Idiom) (s : Store) (cmd : list string)
        (w j : Idiom) :
  NoDup (map fst (dispatches app)) ->
  idioms app = inr (ids, s) ->
  first_match ids cmd = Some w ->
  In j (table app) ->
  firstn (gravity j) cmd = tokens j ->
  j = w \/ gravity j < gravity w.
Proof.
  intros Hnd Hids Hw Hj Hjm.
  apply idioms_list in Hids. subst ids.
  destruct (first_match_in_table _ _ _ Hw) as [Hwin Hwm].
  assert (Hle : gravity j <= gravity w).
  { apply (find_sorted_greatest Idiom idiom_key (matches cmd)
                                 (sorted_reverse idiom_key (table app)) w).
    - apply sorted_reverse_sorted.
    - exact Hw.
    - now apply sorted_reverse_in.
    - now apply matches_true. }
  destruct (Nat.eq_dec (gravity j) (gravity w)) as [Hg|Hg]; [left|right; lia].
  apply (NoDup_key_inj Idiom idiom_key (table app)); auto.
  - now apply table_keys_NoDup.
  - unfold idiom_key. rewrite <- Hjm, <- Hwm, Hg. reflexivity.
Qed.

Lemma cognize_matched_idiom
      (app : App) (m : string) (cmd : list string) (t : list string)
      (a : Method) (bw : list string) (x : list (string * string)) (s : Store) :
  cls_mode (app_class app) = Some m ->
  cognize app cmd = CogMatched t a bw x s ->
  exists w, In w (table app) /\ firstn (gravity w) cmd = tokens w /\
            t = tokens w /\ a = action w.
Proof.
  intros Hmode. rewrite (cognize_first_match _ _ _ Hmode).
  destruct (first_match _ cmd) as [w|] eqn:Hw; [|discriminate].
  destruct (first_match_in_table _ _ _ Hw) as [Hin Hpre].
  unfold hand_over. destruct (condex_sed _ _); [|discriminate].
  intros [= <- <- _ _ _]. eauto.
Qed.

Lemma built_idiom_head (cls : PyClass) (s : Store) (i : Idiom) :
  In i (table (mk_app cls (scan_dir (cls_dir cls)) s)) ->
  exists w ts attr,
    tokens i = w :: ts /\ gravity i = S (List.length ts) /\
    String.prefix "do_" attr = true /\ tokens i = tokens_of_attr attr.
Proof.
  intros Hi. pose proof (table_gravity _ _ Hi) as Hg.
  pose proof (table_gravity_pos _ _ _ Hi) as Hp.
  apply table_entry in Hi. simpl in Hi. apply scan_dir_in in Hi.
  destruct Hi as (attr & _ & Hpre & Ht).
  destruct (tokens i) as [|w ts] eqn:E; [rewrite Hg in Hp; simpl in Hp; lia|].
  exists w, ts, attr. rewrite Hg. auto.
Qed.

Lemma split_no_sep (sep : ascii) (s w : string) :
  In w (Text.split sep s) -> has_char sep w = false.
Proof.
  revert w. induction s as [|c s IH]; simpl; intros w.
  - intros [<-|[]]. reflexivity.
  - destruct (Ascii.eqb c sep) eqn:Ec.
    + intros [<-|Hin]; [reflexivity|now apply IH].
    + destruct (Text.split sep s) as [|v vs] eqn:Es.
      * intros [<-|[]]. simpl. now rewrite Ec.
      * intros [<-|Hin].
        -- simpl. rewrite Ec. apply IH. now left.
        -- apply IH. now right.
Qed.

(** X5. An action's name and its idiom determine each other: joining the
    tokens with [_] behind the prefix [do_] gives the name back, so when
    [dir] lists no name twice the dispatch table holds no token sequence
    twice. *)
Theorem action_names_round_trip :
  (forall attr,
      String.prefix "do_" attr = true ->
      ("do_" ++ Text.join "_" (tokens_of_attr attr))%string = attr) /\
  (forall d : list (string * Attr),
      NoDup (map fst d) -> NoDup (map fst (scan_dir d))).
Proof.
  split.
  - intros attr Hpre. unfold tokens_of_attr.
    change "_" with (String "_"%char EmptyString) at 1.
    rewrite TextFacts.join_split.
    symmetry. exact (TextFacts.prefix_append "do_" attr Hpre).
  - apply scan_dir_tokens_NoDup.
Qed.

(** X6. No token of a registered idiom contains an underscore, so a
    command whose first word contains one resolves to nothing. *)
Theorem underscore_word_never_matches (cls : PyClass) (s : Store) :
  (forall t a w, In (t, a) (scan_dir (cls_dir cls)) -> In w t ->
                 has_char "_"%char w = false) /\
  (forall m w rest,
      cls_mode cls = Some m ->
      has_char "_"%char w = true ->
      cognize (mk_app cls (scan_dir (cls_dir cls)) s) (w :: rest) =
        CogNone (noted cls (NCreated (List.length (scan_dir (cls_dir cls)))) s)).
Proof.
  assert (Htok : forall t a w, In (t, a) (scan_dir (cls_dir cls)) -> In w t ->
                               has_char "_"%char w = false).
  { intros t a w Hin Hw. apply scan_dir_in in Hin.
    destruct Hin as (attr & _ & _ & ->). now apply split_no_sep in Hw. }
  split; [exact Htok|].
  intros m w rest Hmode Hw.
  apply (cognize_none (mk_app cls (scan_dir (cls_dir cls)) s) m); [exact Hmode|].
  intros i Hi Hmatch.
  destruct (built_idiom_head _ _ _ Hi) as (v & ts & attr & Et & Eg & _ & _).
  rewrite Eg, Et in Hmatch. simpl in Hmatch. injection Hmatch as Hv _.
  apply table_entry in Hi. simpl in Hi.
  rewrite (Htok (tokens i) (action i) w Hi) in Hw; [discriminate|].
  rewrite Et, Hv. now left.
Qed.

Lemma unmatched_conf (app : App) : conf (unmatched app) = conf (store app).
Proof. unfold unmatched. rewrite !noted_conf. apply strip_started_conf. Qed.

(** X7. A command that resolves to nothing leaves the configuration as it
    was: the mutation tokens it may hold are not applied. *)
Theorem no_match_keeps_configuration (app : App) (m : string) (run_mode : string) :
  cls_mode (app_class app) = Some m ->
  (forall i, In i (table app) ->
             firstn (gravity i) (comargs (store (strip_explain app))) <> tokens i) ->
  conf (result_store (run app run_mode)) = conf (store app).
Proof.
  intros Hmode Hno.
  rewrite (run_no_match app m run_mode Hmode Hno), finish_conf.
  change (conf (failed no_match_msg None (unmatched app)))
    with (conf (unmatched app)).
  apply unmatched_conf.
Qed.

(** X8. For a dispatch table built by [__init__], the empty command line
    and the bare word [explain] both end in the no-match Failure, with exit
    code 1 on the command line. *)
Theorem empty_command_fails
        (cls : PyClass) (m : string) (s : Store) (run_mode : string) :
  cls_mode cls = Some m ->
  comargs s = [] \/ comargs s = ["explain"] ->
  report (result_store (run (mk_app cls (scan_dir (cls_dir cls)) s) run_mode)) =
    Some (mk_report Failure no_match_msg None) /\
  exists s', run (mk_app cls (scan_dir (cls_dir cls)) s) "cli" = Exited 1 s'.
Proof.
  intros Hmode Hcmd.
  set (app := mk_app cls (scan_dir (cls_dir cls)) s).
  assert (Hstrip : comargs (store (strip_explain app)) = []).
  { unfold strip_explain. simpl.
    destruct Hcmd as [H|H]; rewrite H; simpl; [exact H|reflexivity]. }
  assert (Hno : forall i, In i (table app) ->
                   firstn (gravity i) (comargs (store (strip_explain app)))
                   <> tokens i).
  { rewrite Hstrip. intros i Hi Hmatch.
    destruct (built_idiom_head cls s i Hi) as (v & ts & attr & Et & _).
    rewrite firstn_nil, Et in Hmatch. discriminate. }
  split.
  - rewrite (run_no_match app m run_mode Hmode Hno), finish_report. reflexivity.
  - rewrite (run_no_match app m "cli" Hmode Hno), finish_cli. eauto.
Qed.

(** X9. For a dispatch table built by [__init__], an action that the run
    loop invokes never has [explain] as the first token of its idiom: an
    action registered under such a name can be explained, not run. *)
Theorem explain_word_never_dispatched
        (cls : PyClass) (m : string) (s : Store) (t : list string) (a : Method)
        (bw : list string) (x : list (string * string)) (s2 : Store) :
  cls_mode cls = Some m ->
  is_explain (comargs s) = false ->
  cognize (mk_app cls (scan_dir (cls_dir cls)) s) (comargs s) =
    CogMatched t a bw x s2 ->
  exists w ts, t = w :: ts /\ w <> "explain".
Proof.
  intros Hmode Hex Hcog.
  destruct (cognize_matched_idiom (mk_app cls (scan_dir (cls_dir cls)) s)
                                  m _ _ _ _ _ _ Hmode Hcog)
    as (i & Hi & Hpre & -> & _).
  destruct (built_idiom_head _ _ _ Hi) as (w & ts & attr & Et & Eg & _ & _).
  exists w, ts. split; [exact Et|].
  rewrite Eg, Et in Hpre.
  destruct (comargs s) as [|c cs]; [discriminate|].
  simpl in Hpre, Hex. injection Hpre as -> _.
  intros ->. discriminate.
Qed.

(** X10. The run loop ends the process only in the [cli] run mode, only
    with the exit code 0 or 1, and only after writing the report and a
    line end to the standard output. *)
Theorem run_exits_only_on_command_line
        (app : App) (run_mode : string) (code : Z) (s : Store) :
  run app run_mode = Exited code s ->
  run_mode = "cli" /\ (code = 0%Z \/ code = 1%Z) /\
  exists s0 r form,
    report s = Some r /\
    stdout s = stdout s0 ++ [WReport r form; WText Text.newline].
Proof.
  intros Hrun. destruct (run_exited _ _ _ _ Hrun) as [s0 Hfin].
  destruct (finish_exited _ _ _ _ Hfin) as (-> & -> & ->).
  split; [reflexivity|]. split.
  - unfold exit_code. destruct (indicates_failure _); auto.
  - exists s0, (the_report s0), (form_of (reported s0)).
    split; [apply rendered_report|apply rendered_stdout].
Qed.

(** X11. When the run loop returns instead of exiting, the value says
    nothing about the outcome: in the [gui] run mode it is
    [{'status': 'success'}] whatever the report, also for a command that
    resolved to nothing and left a Failure report, and in any other run
    mode than [cli] and [gui] it is [None]. *)
Theorem returned_status_ignores_outcome :
  (forall (app : App) (run_mode : string) v s,
      run app run_mode = Returned v s ->
      (run_mode = "gui" /\ v = Some [("status", "success")]) \/
      (run_mode <> "cli" /\ run_mode <> "gui" /\ v = None)) /\
  (forall (app : App) (m : string),
      cls_mode (app_class app) = Some m ->
      (forall i, In i (table app) ->
                 firstn (gravity i) (comargs (store (strip_explain app))) <> tokens i) ->
      run app "gui" =
        Returned (Some [("status", "success")])
                 (failed no_match_msg None (unmatched app)) /\
      report (result_store (run app "gui")) =
        Some (mk_report Failure no_match_msg None)).
Proof.
  split.
  - intros app rm v s Hrun. destruct (run_returned _ _ _ _ Hrun) as [s0 Hfin].
    destruct (finish_returned _ _ _ _ Hfin) as (Hcli & _ & [[-> ->]|[Hgui ->]]);
      auto.
  - intros app m Hmode Hno.
    rewrite (run_no_match app m "gui" Hmode Hno).
    split; [now rewrite finish_gui|now rewrite finish_report].
Qed.

(** *** [configure] *)

Lemma emit_logger (l : Z) (msg : string) (s : Store) :
  logger (emit l msg s) = logger s.
Proof. unfold emit. destruct (logger_isEnabledFor _ _ _); reflexivity. Qed.

Lemma emit_logging (l : Z) (msg : string) (s : Store) :
  logging (emit l msg s) = logging s.
Proof. unfold emit. destruct (logger_isEnabledFor _ _ _); reflexivity. Qed.

Lemma load_confiles_app (cls : PyClass) (f1 f2 : list string) (s : Store) :
  load_confiles cls (f1 ++ f2) s =
    match load_confiles cls f1 s with
    | Done s1 => load_confiles cls f2 s1
    | Threw e s1 => Threw e s1
    end.
Proof.
  revert s. induction f1 as [|f f1 IH]; intros s; [reflexivity|].
  cbn [load_confiles List.app]. destruct (get_mode cls); [reflexivity|].
  destruct (condex_load f); [reflexivity|apply IH].
Qed.

(** What the inner loop of [configure] leaves when every file loads. *)
Lemma load_confiles_done
      (cls : PyClass) (m : string) (confiles : list string) (docs : list Condex)
      (s : Store) :
  cls_mode cls = Some m ->
  Forall2 (fun f d => condex_load f = inr d) confiles docs ->
  exists s',
    load_confiles cls confiles s = Done s' /\
    conf s' = fold_left condex_update docs (conf s) /\
    comargs s' = comargs s /\ report s' = report s /\
    log s' =
      (if logger_isEnabledFor (logging s) (logger s) Logging.DEBUG
       then log s ++ map (fun f => (Logging.DEBUG,
                                    ("looking for configuration in " ++ f)%string))
                         confiles
       else log s) /\
    stdout s' =
      (if mode_is_debug cls
       then stdout s ++ flat_map (fun f => [WNote (NLooking f); WText Text.newline])
                                 confiles
       else stdout s) /\
    logger s' = logger s /\ logging s' = logging s.
Proof.
  intros Hmode H. revert s.
  induction H as [|f d confiles docs Hload _ IH]; intros s.
  - exists s. cbn [load_confiles fold_left map flat_map].
    rewrite !app_nil_r.
    destruct (logger_isEnabledFor _ _ _), (mode_is_debug cls); auto 10.
  - cbn [load_confiles]. rewrite (get_mode_defined _ _ Hmode), Hload.
    match goal with
    | |- context [load_confiles cls confiles ?s1] =>
        destruct (IH s1) as (s' & H1 & H2 & H3 & H4 & H5 & H6 & H7 & H8)
    end.
    exists s'. split; [exact H1|].
    cbn [conf comargs report log stdout logger logging set_conf] in *.
    rewrite emit_conf, noted_conf in H2.
    rewrite emit_comargs, noted_comargs in H3.
    rewrite emit_report, noted_report in H4.
    rewrite emit_logger, emit_logging, noted_logger, noted_logging in *.
    rewrite emit_log, noted_log, noted_logger, noted_logging in H5.
    rewrite emit_stdout in H6.
    split; [exact H2|]. split; [exact H3|]. split; [exact H4|].
    split; [|split; [|split; assumption]].
    + rewrite H5. cbn [map].
      destruct (logger_isEnabledFor (logging s) (logger s) Logging.DEBUG);
        [now rewrite <- app_assoc|reflexivity].
    + rewrite H6. unfold noted, print_note. cbn [flat_map].
      destruct (mode_is_debug cls); [|reflexivity].
      cbn [stdout write]. now rewrite <- !app_assoc.
Qed.

(** X12. The inner loop of [configure] merges the configuration files in
    the order [glob] gave them, each into the result of the ones before;
    the logger is told of each file at debug severity, in that order; a
    line is printed for each file when [mode] is ['debug'] and nothing is
    printed otherwise; the command and the report are not touched. Loading
    two batches one after the other is loading them all at once; a file
    that fails to load ends the loop with the merges before it kept; and
    in a class without [mode] the loop raises at its first file. *)
Theorem configure_merges_in_order (cls : PyClass) :
  (forall f1 f2 s,
      load_confiles cls (f1 ++ f2) s =
        match load_confiles cls f1 s with
        | Done s1 => load_confiles cls f2 s1
        | Threw e s1 => Threw e s1
        end) /\
  (forall m confiles docs s,
      cls_mode cls = Some m ->
      Forall2 (fun f d => condex_load f = inr d) confiles docs ->
      exists s',
        load_confiles cls confiles s = Done s' /\
        conf s' = fold_left condex_update docs (conf s) /\
        comargs s' = comargs s /\ report s' = report s /\
        log s' =
          (if logger_isEnabledFor (logging s) (logger s) Logging.DEBUG
           then log s ++ map (fun f => (Logging.DEBUG,
                                        ("looking for configuration in " ++ f)%string))
                             confiles
           else log s) /\
        stdout s' =
          (if mode_is_debug cls
           then stdout s ++ flat_map (fun f => [WNote (NLooking f); WText Text.newline])
                                     confiles
           else stdout s)) /\
  (forall m f e rest s,
      cls_mode cls = Some m ->
      condex_load f = inl e ->
      exists s', load_confiles cls (f :: rest) s = Threw e s' /\ conf s' = conf s) /\
  (forall f rest s,
      cls_mode cls = None ->
      load_confiles cls (f :: rest) s =
        Threw (AttributeError (cls_name cls) "mode") s).
Proof.
  split; [apply load_confiles_app|]. split; [|split].
  - intros m confiles docs s Hmode H.
    destruct (load_confiles_done cls m confiles docs s Hmode H)
      as (s' & G1 & G2 & G3 & G4 & G5 & G6 & _).
    exists s'. auto 10.
  - intros m f e rest s Hmode Hload. cbn [load_confiles].
    rewrite (get_mode_defined _ _ Hmode), Hload.
    eexists. split; [reflexivity|]. now rewrite emit_conf, noted_conf.
  - intros f rest s Hmode. cbn [load_confiles].
    now rewrite (get_mode_missing _ Hmode).
Qed.

(** *** [do_help] *)

(** [a] may stand before [b] in [sorted(self.dispatches)]. *)
Local Abbreviation asc a b := (tokens_compare (fst a) (fst b) <> Gt).

Lemma tokens_le_trans (a b c : list string) :
  tokens_compare a b <> Gt -> tokens_compare b c <> Gt -> tokens_compare a c <> Gt.
Proof.
  intros Hab Hbc Hac.
  rewrite tokens_compare_antisym in Hac.
  assert (Hca : tokens_compare c a = Lt)
    by (destruct (tokens_compare c a); simpl in Hac; congruence).
  destruct (tokens_compare a b) eqn:Eab; [| |congruence].
  - apply tokens_compare_eq in Eab. subst b.
    rewrite tokens_compare_antisym, Hca in Hbc. simpl in Hbc. congruence.
  - pose proof (tokens_compare_lt_trans _ _ _ Hca Eab) as Hcb.
    rewrite tokens_compare_antisym, Hcb in Hbc. simpl in Hbc. congruence.
Qed.

Lemma insert_asc_perm (x : Dispatch) (l : list Dispatch) :
  Permutation (x :: l) (insert_asc x l).
Proof.
  induction l as [|y l IH]; simpl; [apply Permutation_refl|].
  destruct (tokens_ltb (fst y) (fst x)); [|apply Permutation_refl].
  eapply perm_trans; [apply perm_swap|]. now apply perm_skip.
Qed.

Lemma sorted_dispatches_perm (l : list Dispatch) :
  Permutation l (sorted_dispatches l).
Proof.
  induction l as [|x l IH]; simpl; [constructor|].
  eapply perm_trans; [apply perm_skip, IH|]. apply insert_asc_perm.
Qed.

Lemma insert_asc_sorted (x : Dispatch) (l : list Dispatch) :
  StronglySorted (fun a b => asc a b) l ->
  StronglySorted (fun a b => asc a b) (insert_asc x l).
Proof.
  induction 1 as [|y l Hs IH Hall]; simpl.
  - constructor; constructor.
  - unfold tokens_ltb. destruct (tokens_compare (fst y) (fst x)) eqn:E.
    + constructor; [now constructor|]. constructor.
      * rewrite tokens_compare_antisym, E. discriminate.
      * eapply Forall_impl; [|exact Hall]. intros z Hz. simpl in Hz.
        apply tokens_le_trans with (fst y); [|exact Hz].
        rewrite tokens_compare_antisym, E. discriminate.
    + constructor; [exact IH|].
      apply Forall_forall. intros z Hz.
      apply (Permutation_in _ (Permutation_sym (insert_asc_perm x l))) in Hz.
      destruct Hz as [<-|Hz]; [rewrite E; discriminate|].
      rewrite Forall_forall in Hall. now apply Hall.
    + constructor; [now constructor|]. constructor.
      * rewrite tokens_compare_antisym, E. discriminate.
      * eapply Forall_impl; [|exact Hall]. intros z Hz. simpl in Hz.
        apply tokens_le_trans with (fst y); [|exact Hz].
        rewrite tokens_compare_antisym, E. discriminate.
Qed.

Lemma sorted_dispatches_sorted (l : list Dispatch) :
  StronglySorted (fun a b => asc a b) (sorted_dispatches l).
Proof.
  induction l as [|x l IH]; simpl; [constructor|].
  now apply insert_asc_sorted.
Qed.

(** X14. [do_help] leaves a Success report without payload whose body
    holds, for every registered action, the line [* name tokens] and every
    line of the action's documentation; the barewords play no part. *)
Theorem help_lists_every_action
        (name : string) (l : list Dispatch) (bw : list string) (s : Store)
        (d : Dispatch) :
  In d l ->
  exists lines,
    report (do_help name l bw s) =
      Some (mk_report Success (Text.join Text.newline lines) None) /\
    In ("* " ++ name ++ " " ++ Text.join " " (fst d))%string lines /\
    (forall line, In line (help_doc_lines (snd d)) -> In line lines) /\
    do_help name l bw s = do_help name l [] s.
Proof.
  intros Hd. exists (help_lines name l).
  assert (Hin : In d (sorted_dispatches l))
    by (eapply Permutation_in; [apply sorted_dispatches_perm|exact Hd]).
  split; [reflexivity|]. split; [|split; [|reflexivity]].
  - unfold help_lines. apply in_flat_map. exists d. split; [exact Hin|].
    now left.
  - intros line Hline. unfold help_lines. apply in_flat_map. exists d.
    split; [exact Hin|]. now right.
Qed.

(** X15. The entries of the help text come in ascending order of their
    token sequences: they are the entries of the registered actions,
    rearranged so that no entry stands before one with smaller tokens. *)
Theorem help_is_sorted (name : string) (l : list Dispatch) :
  exists ds,
    Permutation l ds /\
    StronglySorted (fun a b => tokens_compare (fst a) (fst b) <> Gt) ds /\
    help_lines name l = flat_map (help_entry name) ds.
Proof.
  exists (sorted_dispatches l).
  split; [apply sorted_dispatches_perm|].
  split; [apply sorted_dispatches_sorted|reflexivity].
Qed.


(** *** [class TestApp] *)

Lemma cognize_xtraopts
      (app : App) (cmd : list string) (t : list string) (a : Method)
      (bw : list string) (x : list (string * string)) (s : Store) :
  cognize app cmd = CogMatched t a bw x s -> x = xtraopts.
Proof.
  unfold cognize. destruct (idioms app) as [e|[ids s0]]; [discriminate|].
  destruct (first_match _ _); [|discriminate].
  destruct (condex_sed _ _); [|discriminate]. now intros [= _ _ _ <- _].
Qed.

(** [TestApp.test] never gets as far as [app.run()]: [TestApp] has no
    [mode], so [cls()] raises [AttributeError] at line 46, before the logger
    is set up and before the configuration is loaded. *)
Lemma TestApp_cannot_start (ls : LogState) :
  TestApp_test ls =
    InitRaised (AttributeError "TestApp" "mode")
               {| p_run_mode := "cli"; p_comargs := ["help"]; p_actions := [];
                  p_dispatches := []; p_name := None |}.
Proof. reflexivity. Qed.

(** X16. The three actions of [TestApp] take no keyword arguments, and the
    run loop always passes [xtraopt]: when a command resolves to one of
    them and [configure_logger] returns, the call at line 284 raises
    [TypeError] before the body prints anything, and the outcome is an
    Exception report carrying that error's message; on the command line
    the process exits with code 1. *)
Theorem TestApp_actions_reject_xtraopt
        (app : App) (m : string) (run_mode : string) (t : list string)
        (a : Method) (bw : list string) (x : list (string * string))
        (s2 s3 : Store) :
  cls_mode (app_class app) = Some m ->
  is_explain (comargs (store app)) = false ->
  cognize (started app) (comargs (store app)) = CogMatched t a bw x s2 ->
  configure_logger (noted (app_class app) (NMatching (Some (t, m_repr a, bw, x))) s2) = Done s3 ->
  In a TestApp_actions ->
  exists qualname,
    m_call a bw x (noted (app_class app) NExecutableStart s3) =
      RaisedIn (unexpected_keyword qualname "xtraopt")
               (noted (app_class app) NExecutableStart s3) /\
    report (result_store (run app run_mode)) =
      Some (mk_report Exception
                      (qualname ++ "() got an unexpected keyword argument 'xtraopt'")
                      None) /\
    run app "cli" =
      Exited 1 (rendered (crashed (exn_str (unexpected_keyword qualname "xtraopt"))
                                  None
                                  (noted (app_class app) NExecutableStart s3))).
Proof.
  intros Hmode Hex Hcog Hprep Ha.
  fold (prepare (app_class app) t a bw x s2) in Hprep.
  pose proof (cognize_xtraopts _ _ _ _ _ _ _ Hcog) as ->.
  set (s4 := noted (app_class app) NExecutableStart s3).
  assert (Hcall : exists qualname,
             m_call a bw xtraopts s4 =
               RaisedIn (unexpected_keyword qualname "xtraopt") s4).
  { destruct Ha as [<-|[<-|[<-|[]]]]; eexists; reflexivity. }
  destruct Hcall as [q Hcall]. exists q.
  assert (Hrun : forall rm,
             run app rm =
               finish rm (crashed (exn_str (unexpected_keyword q "xtraopt")) None s4)).
  { intros rm. rewrite (run_matched_plain _ _ rm _ _ _ _ _ Hmode Hex Hcog), Hprep.
    unfold after_match, invoke. fold s4. rewrite Hcall. reflexivity. }
  split; [exact Hcall|]. split.
  - rewrite Hrun, finish_report. unfold the_report. rewrite crashed_report. reflexivity.
  - rewrite Hrun, finish_cli. unfold the_report. rewrite crashed_report. reflexivity.
Qed.

End MoreFacts.

(** *** The theorems on the sample subclasses *)

Import Demo.
#[local] Existing Instance demo_condo.
#[local] Existing Instance demo_runtime.

Lemma Maker_tokens_NoDup : NoDup (map fst (dispatches (app_of Maker []))).
Proof.
  simpl. repeat constructor; simpl; intros H;
    repeat (destruct H as [H|H]; [discriminate|]); exact H.
Defined.

Lemma cognize_splits_command_witness :
  cls_mode (app_class (app_of Maker ["make"; "catalog"; "x"])) = Some "run" /\
  cognize (app_of Maker ["make"; "catalog"; "x"]) ["make"; "catalog"; "x"] =
    CogMatched ["make"; "catalog"] do_make_catalog ["x"] xtraopts
               (store (app_of Maker ["make"; "catalog"; "x"])) /\
  In (["make"; "catalog"], do_make_catalog)
     (dispatches (app_of Maker ["make"; "catalog"; "x"])) /\
  exists rest c,
    ["make"; "catalog"; "x"] = ["make"; "catalog"] ++ rest /\
    condex_sed (conf (store (app_of Maker ["make"; "catalog"; "x"]))) rest =
      SedDone c ["x"].
Proof.
  split; [reflexivity|]. split; [reflexivity|].
  destruct (cognize_splits_command
              (app_of Maker ["make"; "catalog"; "x"]) "run"
              ["make"; "catalog"; "x"] ["make"; "catalog"] do_make_catalog ["x"]
              xtraopts (store (app_of Maker ["make"; "catalog"; "x"]))
              eq_refl eq_refl)
    as (H1 & _ & rest & c & H3 & _ & H5 & _).
  split; [exact H1|]. exists rest, c. auto.
Defined.

Lemma cognize_touches_only_conf_witness :
  mode_is_debug Chatty = true /\
  exists s,
    cognize (app_of Chatty ["make"; "x"]) ["make"; "x"] =
      CogMatched ["make"] do_make ["x"] xtraopts s /\
    comargs s = ["make"; "x"] /\ report s = None /\ log s = [] /\
    exists notes, stdout s = stdout (store (app_of Chatty ["make"; "x"])) ++ notes.
Proof.
  split; [reflexivity|]. eexists. split; [reflexivity|].
  destruct (cognize_touches_only_conf (app_of Chatty ["make"; "x"]) ["make"; "x"])
    as (H1 & H2 & H3 & H4 & _).
  split; [exact H1|]. split; [exact H2|]. split; [exact H3|exact H4].
Defined.

Lemma idioms_ignore_registration_order_witness :
  app_class (app_of Maker []) =
    app_class (mk_app Maker (rev (dispatches (app_of Maker [])))
                      (store (app_of Maker []))) /\
  Permutation (dispatches (app_of Maker [])) (rev (dispatches (app_of Maker []))) /\
  NoDup (map fst (dispatches (app_of Maker []))) /\
  idioms (app_of Maker []) =
    idioms (mk_app Maker (rev (dispatches (app_of Maker [])))
                   (store (app_of Maker []))).
Proof.
  split; [reflexivity|]. split; [apply Permutation_rev|].
  split; [exact Maker_tokens_NoDup|].
  exact (proj1 (proj2 (idioms_ignore_registration_order
                         (app_of Maker [])
                         (mk_app Maker (rev (dispatches (app_of Maker [])))
                                 (store (app_of Maker [])))
                         eq_refl (Permutation_rev _) Maker_tokens_NoDup)
                      eq_refl)).
Defined.

Lemma resolution_is_unambiguous_witness :
  NoDup (map fst (dispatches (app_of Maker []))) /\
  idioms (app_of Maker []) =
    inr (sorted_reverse idiom_key (map idiom_of (dispatches (app_of Maker []))),
         store (app_of Maker [])) /\
  first_match (sorted_reverse idiom_key (map idiom_of (dispatches (app_of Maker []))))
              ["make"; "catalog"; "x"] =
    Some (2, ["make"; "catalog"], do_make_catalog) /\
  In (1, ["make"], do_make) (map idiom_of (dispatches (app_of Maker []))) /\
  firstn 1 ["make"; "catalog"; "x"] = ["make"] /\
  ((1, ["make"], do_make) = (2, ["make"; "catalog"], do_make_catalog) \/ 1 < 2).
Proof.
  split; [exact Maker_tokens_NoDup|]. split; [reflexivity|].
  split; [reflexivity|].
  assert (Hin : In (1, ["make"], do_make)
                   (map idiom_of (dispatches (app_of Maker []))))
    by (simpl; auto 10).
  split; [exact Hin|]. split; [reflexivity|].
  exact (resolution_is_unambiguous
           (app_of Maker []) _ (store (app_of Maker [])) ["make"; "catalog"; "x"]
           (2, ["make"; "catalog"], do_make_catalog) (1, ["make"], do_make)
           Maker_tokens_NoDup eq_refl eq_refl Hin eq_refl).
Defined.

Lemma action_names_round_trip_witness :
  String.prefix "do_" "do_make_catalog" = true /\
  ("do_" ++ Text.join "_" (tokens_of_attr "do_make_catalog"))%string =
    "do_make_catalog".
Proof.
  split; [reflexivity|].
  exact (proj1 action_names_round_trip "do_make_catalog" eq_refl).
Defined.

Lemma underscore_word_never_matches_witness :
  cls_mode Maker = Some "run" /\
  has_char "_"%char "make_catalog" = true /\
  cognize (app_of Maker ["make_catalog"]) ["make_catalog"; "x"] =
    CogNone (store (app_of Maker ["make_catalog"])).
Proof.
  split; [reflexivity|]. split; [reflexivity|].
  exact (proj2 (underscore_word_never_matches
                  Maker (store (app_of Maker ["make_catalog"])))
               "run" "make_catalog" ["x"] eq_refl eq_refl).
Defined.

Lemma no_match_keeps_configuration_witness :
  cls_mode (app_class (app_of Maker ["bogus"; "x:"; "1"])) = Some "run" /\
  conf (result_store (run (app_of Maker ["bogus"; "x:"; "1"]) "cli")) =
    conf (store (app_of Maker ["bogus"; "x:"; "1"])).
Proof.
  split; [reflexivity|].
  exact (no_match_keeps_configuration
           (app_of Maker ["bogus"; "x:"; "1"]) "run" "cli" eq_refl
           (Maker_no_bogus ["x:"; "1"])).
Defined.

Lemma empty_command_fails_witness :
  cls_mode Maker = Some "run" /\
  comargs (store (app_of Maker ["explain"])) = ["explain"] /\
  report (result_store (run (app_of Maker ["explain"]) "gui")) =
    Some (mk_report Failure no_match_msg None).
Proof.
  split; [reflexivity|]. split; [reflexivity|].
  exact (proj1 (empty_command_fails
                  Maker "run" (store (app_of Maker ["explain"])) "gui"
                  eq_refl (or_intror eq_refl))).
Defined.

Lemma explain_word_never_dispatched_witness :
  cls_mode Maker = Some "run" /\
  is_explain (comargs (store (app_of Maker ["make"; "y"]))) = false /\
  cognize (app_of Maker ["make"; "y"]) ["make"; "y"] =
    CogMatched ["make"] do_make ["y"] xtraopts (store (app_of Maker ["make"; "y"])) /\
  exists w ts, ["make"] = w :: ts /\ w <> "explain".
Proof.
  split; [reflexivity|]. split; [reflexivity|]. split; [reflexivity|].
  exact (explain_word_never_dispatched
           Maker "run" (store (app_of Maker ["make"; "y"])) ["make"] do_make ["y"]
           xtraopts (store (app_of Maker ["make"; "y"])) eq_refl eq_refl eq_refl).
Defined.

Lemma run_exits_only_on_command_line_witness :
  run (app_of Maker ["boom"]) "cli" =
    Exited 1 (result_store (run (app_of Maker ["boom"]) "cli")) /\
  "cli" = "cli" /\ (1%Z = 0%Z \/ 1%Z = 1%Z).
Proof.
  split; [reflexivity|].
  destruct (run_exits_only_on_command_line
              (app_of Maker ["boom"]) "cli" 1%Z
              (result_store (run (app_of Maker ["boom"]) "cli")) eq_refl)
    as (H1 & H2 & _).
  split; [exact H1|exact H2].
Defined.

Lemma returned_status_ignores_outcome_witness :
  cls_mode (app_class (app_of Maker ["bogus"; "verb"])) = Some "run" /\
  run (app_of Maker ["bogus"; "verb"]) "gui" =
    Returned (Some [("status", "success")])
             (failed no_match_msg None (store (app_of Maker ["bogus"; "verb"]))) /\
  report (result_store (run (app_of Maker ["bogus"; "verb"]) "gui")) =
    Some (mk_report Failure no_match_msg None).
Proof.
  split; [reflexivity|].
  exact (proj2 returned_status_ignores_outcome
               (app_of Maker ["bogus"; "verb"]) "run" eq_refl
               (Maker_no_bogus ["verb"])).
Defined.

Lemma configure_merges_in_order_witness :
  cls_mode Site = Some "run" /\
  Forall2 (fun f d => @condex_load site_condo f = inr d)
          ["/etc/maker/a.yml"; "/etc/maker/b.yml"]
          [CondoSpec.NMap [("colour", CondoSpec.NStr "red"); ("size", CondoSpec.NInt 1)];
           CondoSpec.NMap [("colour", CondoSpec.NStr "blue")]] /\
  exists s',
    @load_confiles site_condo site_runtime Site
                   ["/etc/maker/a.yml"; "/etc/maker/b.yml"] site_store = Done s' /\
    @conf site_condo site_runtime s' =
      CondoSpec.NMap [("colour", CondoSpec.NStr "blue"); ("size", CondoSpec.NInt 1)] /\
    @log site_condo site_runtime s' =
      [(Logging.DEBUG, "looking for configuration in /etc/maker/a.yml");
       (Logging.DEBUG, "looking for configuration in /etc/maker/b.yml")] /\
    @stdout site_condo site_runtime s' = [].
Proof.
  assert (H : Forall2 (fun f d => @condex_load site_condo f = inr d)
                ["/etc/maker/a.yml"; "/etc/maker/b.yml"]
                [CondoSpec.NMap [("colour", CondoSpec.NStr "red");
                                 ("size", CondoSpec.NInt 1)];
                 CondoSpec.NMap [("colour", CondoSpec.NStr "blue")]])
    by (repeat constructor).
  split; [reflexivity|]. split; [exact H|].
  destruct (proj1 (proj2 (@configure_merges_in_order site_condo site_runtime Site))
                  "run" _ _ site_store eq_refl H)
    as (s' & H1 & H2 & _ & _ & H5 & H6).
  exists s'. split; [exact H1|]. split; [exact H2|]. split; [exact H5|exact H6].
Defined.

Lemma help_lists_every_action_witness :
  In (["make"; "catalog"], do_make_catalog) (dispatches (app_of Maker [])) /\
  exists lines,
    report (do_help "maker" (dispatches (app_of Maker [])) ["x"]
                    (store (app_of Maker []))) =
      Some (mk_report Success (Text.join Text.newline lines) None) /\
    In "* maker make catalog" lines /\
    In "catalog made" lines.
Proof.
  assert (Hin : In (["make"; "catalog"], do_make_catalog)
                   (dispatches (app_of Maker []))) by (simpl; auto 10).
  split; [exact Hin|].
  destruct (help_lists_every_action
              "maker" (dispatches (app_of Maker [])) ["x"]
              (store (app_of Maker [])) (["make"; "catalog"], do_make_catalog) Hin)
    as (lines & H1 & H2 & H3 & _).
  exists lines. split; [exact H1|]. split; [exact H2|].
  apply H3. simpl. now left.
Defined.

Lemma TestApp_actions_reject_xtraopt_witness :
  cls_mode (app_class (app_of (with_mode "run" TestApp_class) ["something"; "a"])) =
    Some "run" /\
  is_explain ["something"; "a"] = false /\
  In do_something TestApp_actions /\
  exists s3,
    cognize (started (app_of (with_mode "run" TestApp_class) ["something"; "a"]))
            ["something"; "a"] =
      CogMatched ["something"] do_something ["a"] xtraopts
                 (store (app_of (with_mode "run" TestApp_class) ["something"; "a"])) /\
    prepare (with_mode "run" TestApp_class) ["something"] do_something ["a"] xtraopts
            (store (app_of (with_mode "run" TestApp_class) ["something"; "a"])) =
      Done s3 /\
    exists qualname,
      report (result_store
                (run (app_of (with_mode "run" TestApp_class) ["something"; "a"]) "cli")) =
        Some (mk_report Exception
                        (qualname ++ "() got an unexpected keyword argument 'xtraopt'")
                        None).
Proof.
  split; [reflexivity|]. split; [reflexivity|]. split; [now left|].
  eexists. split; [reflexivity|]. split; [reflexivity|].
  destruct (TestApp_actions_reject_xtraopt
              (app_of (with_mode "run" TestApp_class) ["something"; "a"])
              "run" "cli" ["something"] do_something ["a"] xtraopts
              _ _ eq_refl eq_refl eq_refl eq_refl (or_introl eq_refl))
    as (q & _ & H2 & _).
  exists q. exact H2.
Defined.

End ClixMoreFacts.
